(** * The Zig compile-server client and its error bundle

    A shallow embedding of [src/errorBundle.ts] (the port of Zig's
    ErrorBundle), of the compile-server client [zigServe] and of the
    debug configuration provider that calls it, followed by the
    properties of the specification that concern them and by further
    properties read off the code.

    Conventions of the embedding:
    - a [Uint32Array] is a [list N]: its elements are non-negative by type;
    - a [Buffer] / [Uint8Array] is a [list byte];
    - a JavaScript number that is used as an index or a count is a [Z]
      (numbers are doubles: sums of a few 32-bit words never wrap), with
      [NaN] added where the source can produce it;
    - [undefined], the result of reading a typed array out of range, is
      [None];
    - a JavaScript string is a Rocq [string] holding the well-formed UTF-8
      encoding of the text;
    - an exception is the [Throw] case of [completion]. *)

From Stdlib Require Import ZArith List String Ascii Lia.
From Stdlib Require Strings.Byte.
From stdpp Require Import base tactics option list numbers strings pretty.

Local Open Scope Z_scope.

Abbreviation byte := Corelib.Init.Byte.byte.

(** ** The JavaScript and Node operations the sources call *)

Module Js.

(** A number: an integer or NaN. *)
Inductive number : Type :=
  | Int (z : Z)
  | NaN.

(** An element read from a typed array: a number, or [undefined]. *)
Definition value : Type := option Z.

Definition undefined : value := None.

Inductive Exception : Type :=
  | RangeError
  | TypeError.

(** The outcome of running a piece of code: it returns, or throws, or the
    model ran out of fuel (the code would still be running). *)
Inductive completion (A : Type) : Type :=
  | Normal (a : A)
  | Throw (e : Exception)
  | OutOfFuel.
Arguments Normal {A} a.
Arguments Throw {A} e.
Arguments OutOfFuel {A}.

#[global] Instance completion_ret : MRet completion := fun A a => Normal a.

#[global] Instance completion_bind : MBind completion := fun A B k c =>
  match c with
  | Normal a => k a
  | Throw e => Throw e
  | OutOfFuel => OutOfFuel
  end.

#[global] Instance completion_fmap : FMap completion := fun A B f c =>
  match c with
  | Normal a => Normal (f a)
  | Throw e => Throw e
  | OutOfFuel => OutOfFuel
  end.

Definition ToNumber (v : value) : number :=
  match v with
  | Some z => Int z
  | None => NaN
  end.

Definition add (a b : number) : number :=
  match a, b with
  | Int x, Int y => Int (x + y)
  | _, _ => NaN
  end.

Definition sub (a b : number) : number :=
  match a, b with
  | Int x, Int y => Int (x - y)
  | _, _ => NaN
  end.

Definition Math_min (a b : number) : number :=
  match a, b with
  | Int x, Int y => Int (Z.min x y)
  | _, _ => NaN
  end.

(** [ToIntegerOrInfinity]: NaN becomes 0. *)
Definition ToIntegerOrInfinity (n : number) : Z :=
  match n with
  | Int z => z
  | NaN => 0
  end.

(** Truthiness of a word or [undefined], as in [if (errMsg.srcLoc)]. *)
Definition truthy (v : value) : bool :=
  match v with
  | Some z => negb (z =? 0)
  | None => false
  end.

(** [v === k] for a word or [undefined] [v] and a number literal [k]. *)
Definition strict_eq (v : value) (k : Z) : bool :=
  match v with
  | Some z => z =? k
  | None => false
  end.

(** *** Typed arrays *)

(** [a[i]]: [undefined] outside the array. *)
Definition get {A} (a : list A) (i : Z) : option A :=
  if i <? 0 then None else a !! Z.to_nat i.

(** A relative index of [subarray] and [indexOf]: a negative one counts
    from the end; the result is clamped to [0 .. len]. *)
Definition relative_index (len i : Z) : Z :=
  if i <? 0 then Z.max (len + i) 0 else Z.min i len.

(** [a.subarray(begin, end)]. *)
Definition subarray {A} (a : list A) (begin end_ : Z) : list A :=
  let len := Z.of_nat (length a) in
  let beginIndex := relative_index len begin in
  let endIndex := relative_index len end_ in
  take (Z.to_nat (endIndex - beginIndex)) (drop (Z.to_nat beginIndex) a).

(** [a.subarray(begin)]: the end defaults to the length. *)
Definition subarray_from {A} (a : list A) (begin : Z) : list A :=
  subarray a begin (Z.of_nat (length a)).

Fixpoint find_byte (x : byte) (a : list byte) : option nat :=
  match a with
  | [] => None
  | y :: a' => if Byte.eqb y x then Some O else S <$> find_byte x a'
  end.

(** [a.indexOf(x, fromIndex)] on a [Uint8Array] or a [Buffer]: the first
    position at or after [fromIndex] holding [x], or -1. *)
Definition indexOf (a : list byte) (x : byte) (fromIndex : Z) : Z :=
  let len := Z.of_nat (length a) in
  let k := if fromIndex <? 0 then Z.max (len + fromIndex) 0 else fromIndex in
  match find_byte x (drop (Z.to_nat k) a) with
  | Some i => k + Z.of_nat i
  | None => -1
  end.

(** *** Buffers *)

Definition byte_to_Z (b : byte) : Z := Z.of_N (Byte.to_N b).

Definition byte_of_Z (z : Z) : byte :=
  default Byte.x00 (Byte.of_N (Z.to_N (z mod 256))).

(** [buf.readUInt32LE(offset)]: throws when the four bytes are not all
    inside the buffer. *)
Definition readUInt32LE (buf : list byte) (offset : Z) : completion Z :=
  match subarray buf offset (offset + 4) with
  | [b0; b1; b2; b3] =>
      if (0 <=? offset) && (offset + 4 <=? Z.of_nat (length buf)) then
        Normal (byte_to_Z b0 + byte_to_Z b1 * 2 ^ 8
                + byte_to_Z b2 * 2 ^ 16 + byte_to_Z b3 * 2 ^ 24)
      else Throw RangeError
  | _ => Throw RangeError
  end.

(** [buf.writeUInt32LE(v, offset)] on a buffer long enough, for
    [0 <= v < 2^32]. *)
Definition writeUInt32LE (buf : list byte) (v offset : Z) : list byte :=
  let o := Z.to_nat offset in
  <[(o + 3)%nat := byte_of_Z (v / 2 ^ 24)]>
    (<[(o + 2)%nat := byte_of_Z (v / 2 ^ 16)]>
      (<[(o + 1)%nat := byte_of_Z (v / 2 ^ 8)]>
        (<[o := byte_of_Z v]> buf))).

(** [Buffer.alloc(n)]: [n] zero bytes. *)
Definition Buffer_alloc (n : nat) : list byte := replicate n Byte.x00.

(** *** UTF-8 decoding: [buf.toString("utf8")]

    The decoder of the platform, not of this repository.  Well-formed
    sequences are kept; every maximal ill-formed part is replaced by
    U+FFFD.  The text is represented by its UTF-8 bytes, so a well-formed
    sequence decodes to itself. *)

Definition REPLACEMENT : list byte := [Byte.xef; Byte.xbf; Byte.xbd].

Inductive lead_class : Type :=
  | Ascii
  | Lead (needed : nat) (lower upper : N)
  | Invalid.

Definition classify (b : byte) : lead_class :=
  let n := Byte.to_N b in
  if (n <=? 0x7F)%N then Ascii
  else if (0xC2 <=? n)%N && (n <=? 0xDF)%N then Lead 1 0x80 0xBF
  else if (0xE0 <=? n)%N && (n <=? 0xEF)%N then
    Lead 2 (if (n =? 0xE0)%N then 0xA0 else 0x80)%N
           (if (n =? 0xED)%N then 0x9F else 0xBF)%N
  else if (0xF0 <=? n)%N && (n <=? 0xF4)%N then
    Lead 3 (if (n =? 0xF0)%N then 0x90 else 0x80)%N
           (if (n =? 0xF4)%N then 0x8F else 0xBF)%N
  else Invalid.

(** [seen]: the bytes of the sequence being read, last first;
    [needed]: how many continuation bytes are still expected, each in
    [lower .. upper]. *)
Fixpoint utf8_decode (seen : list byte) (needed : nat) (lower upper : N)
    (bytes : list byte) : list byte :=
  match bytes with
  | [] =>
      match needed with
      | O => []
      | S _ => REPLACEMENT
      end
  | b :: rest =>
      let fresh :=
        match classify b with
        | Ascii => b :: utf8_decode [] 0 0x80%N 0xBF%N rest
        | Lead n lo hi => utf8_decode [b] n lo hi rest
        | Invalid => REPLACEMENT ++ utf8_decode [] 0 0x80%N 0xBF%N rest
        end in
      match needed with
      | O => fresh
      | S n =>
          if (lower <=? Byte.to_N b)%N && (Byte.to_N b <=? upper)%N then
            match n with
            | O => rev (b :: seen) ++ utf8_decode [] 0 0x80%N 0xBF%N rest
            | S _ => utf8_decode (b :: seen) n 0x80%N 0xBF%N rest
            end
          else REPLACEMENT ++ fresh
      end
  end.

Definition Buffer_toString (buf : list byte) : string :=
  string_of_list_byte (utf8_decode [] 0 0x80%N 0xBF%N buf).

(** *** Strings *)

Definition LF : string := String "010"%char EmptyString.
Definition TAB : string := String "009"%char EmptyString.

Definition Number_toString (n : number) : string :=
  match n with
  | Int z => pretty z
  | NaN => "NaN"
  end.

(** [v.toString()] for a word or [undefined]: calling a method of
    [undefined] throws. *)
Definition value_toString (v : value) : completion string :=
  match v with
  | Some z => Normal (pretty z)
  | None => Throw TypeError
  end.

Fixpoint repeat_string (s : string) (n : nat) : string :=
  match n with
  | O => EmptyString
  | S n' => s +:+ repeat_string s n'
  end.

(** [s.repeat(count)]: a negative count throws; NaN counts as 0.  (The
    engine's bound on the length of a string is left out.) *)
Definition String_repeat (s : string) (count : number) : completion string :=
  let n := ToIntegerOrInfinity count in
  if n <? 0 then Throw RangeError else Normal (repeat_string s (Z.to_nat n)).

(** [s.replace(pattern, replacement)] for a string pattern: the first
    occurrence only.  The replacements at the call sites are blanks, so
    the [$] patterns of a replacement never occur. *)
Fixpoint String_replace (s pattern replacement : string) : string :=
  if String.prefix pattern s then
    replacement
    +:+ String.substring (String.length pattern)
          (String.length s - String.length pattern) s
  else
    match s with
    | EmptyString => EmptyString
    | String c s' => String c (String_replace s' pattern replacement)
    end.

(** [strings.join("")]. *)
Definition join (strings : list string) : string :=
  foldr String.append EmptyString strings.

(** [strings.join(separator)]. *)
Fixpoint join_with (separator : string) (strings : list string) : string :=
  match strings with
  | [] => EmptyString
  | [x] => x
  | x :: strings' => x +:+ separator +:+ join_with separator strings'
  end.

End Js.

(** ** Objects used as dictionaries *)

Module JsObject.
Import Js.

Fixpoint parse_decimal (acc : N) (s : string) : option N :=
  match s with
  | EmptyString => Some acc
  | String c s' =>
      let d := Ascii.N_of_ascii c in
      if (48 <=? d)%N && (d <=? 57)%N then
        parse_decimal (acc * 10 + (d - 48))%N s'
      else None
  end.

(** A property key that is an array index: the canonical decimal form
    of an integer below [2^32 - 1]. *)
Definition array_index (key : string) : option N :=
  match parse_decimal 0 key with
  | Some n =>
      if String.eqb (pretty n) key && (n <? 2 ^ 32 - 1)%N then Some n else None
  | None => None
  end.

(** An object with string keys: its own properties, in the order they
    were added. *)
Definition dictionary (V : Type) : Type := list (string * V).

(** The own property [key], if there is one. *)
Definition own {V} (d : dictionary V) (key : string) : option V :=
  snd <$> List.find (fun e => String.eqb e.1 key) d.

(** [d[key] = v]: an existing property keeps its place. *)
Fixpoint assign {V} (d : dictionary V) (key : string) (v : V) : dictionary V :=
  match d with
  | [] => [(key, v)]
  | (k, w) :: d' =>
      if String.eqb k key then (k, v) :: d' else (k, w) :: assign d' key v
  end.

Fixpoint insert_index {V} (n : N) (e : string * V)
    (sorted : list (N * (string * V))) : list (N * (string * V)) :=
  match sorted with
  | [] => [(n, e)]
  | (m, e') :: sorted' =>
      if (n <? m)%N then (n, e) :: sorted
      else (m, e') :: insert_index n e sorted'
  end.

(** [Object.entries(d)]: the array-index keys in ascending order, then
    the other keys in the order they were added. *)
Definition entries {V} (d : dictionary V) : list (string * V) :=
  let indexed :=
    foldl (fun sorted e =>
             match array_index e.1 with
             | Some n => insert_index n e sorted
             | None => sorted
             end) [] d in
  (snd <$> indexed)
  ++ List.filter (fun e => match array_index e.1 with
                           | Some _ => false
                           | None => true
                           end) d.

End JsObject.

(** ** [src/errorBundle.ts] *)

Module ErrorMessageList.
Record t : Type := mk {
  len : Js.value;
  start : Js.value;
  compileLogText : Js.value;
}.
End ErrorMessageList.

Module ErrorMessage.
Record t : Type := mk {
  msg : Js.value;
  count : Js.value;
  srcLoc : Js.value;  (* [undefined] when absent *)
  notesLen : Js.value;
}.
End ErrorMessage.

Module SourceLocation.
Record t : Type := mk {
  srcPath : Js.value;
  line : Js.value;
  column : Js.value;
  spanStart : Js.value;
  spanMain : Js.value;
  spanEnd : Js.value;
  sourceLine : Js.value;  (* [undefined] when absent *)
  referenceTraceLen : Js.value;
}.
End SourceLocation.

Inductive ReferenceTrace : Type :=
  | ReferenceTraceNode (declName : Js.value) (srcLoc : Js.value)
  | ReferenceTraceSentinel (hiddenReferences : Js.value).

Record RenderOptions : Type := {
  includeReferenceTrace : bool;
  includeSourceLine : bool;
  includeLogText : bool;
}.

Module ErrorBundle.
Import Js.

Record t : Type := mk {
  stringBytes : list byte;
  extra : list N;
}.

(** [new ErrorBundle(stringBytes?, extra?)]. *)
Definition new (stringBytes : option (list byte)) (extra : option (list N)) : t :=
  {| stringBytes := default [] stringBytes; extra := default [] extra |}.

(** [this.extra[i]]. *)
Definition extra_at (this : t) (i : Z) : value :=
  Z.of_N <$> get (extra this) i.

Definition getErrorMessageList (this : t) : ErrorMessageList.t :=
  {| ErrorMessageList.len := extra_at this 0;
     ErrorMessageList.start := extra_at this 1;
     ErrorMessageList.compileLogText := extra_at this 2 |}.

Definition errorMessageCount (this : t) : value :=
  if (length (extra this) =? 0)%nat then Some 0
  else ErrorMessageList.len (getErrorMessageList this).

Definition getMessages (this : t) : list Z :=
  let list := getErrorMessageList this in
  let start := ToNumber (ErrorMessageList.start list) in
  let indices :=
    subarray (extra this) (ToIntegerOrInfinity start)
      (ToIntegerOrInfinity (add start (ToNumber (ErrorMessageList.len list)))) in
  Z.of_N <$> indices.

Definition getErrorMessage (this : t) (index : Z) : ErrorMessage.t :=
  let srcLoc := extra_at this (index + 2) in
  {| ErrorMessage.msg := extra_at this index;
     ErrorMessage.count := extra_at this (index + 1);
     ErrorMessage.srcLoc := if strict_eq srcLoc 0 then undefined else srcLoc;
     ErrorMessage.notesLen := extra_at this (index + 3) |}.

Definition getSourceLocation (this : t) (index : Z) : SourceLocation.t :=
  let sourceLine := extra_at this (index + 6) in
  {| SourceLocation.srcPath := extra_at this index;
     SourceLocation.line := extra_at this (index + 1);
     SourceLocation.column := extra_at this (index + 2);
     SourceLocation.spanStart := extra_at this (index + 3);
     SourceLocation.spanMain := extra_at this (index + 4);
     SourceLocation.spanEnd := extra_at this (index + 5);
     SourceLocation.sourceLine :=
       if strict_eq sourceLine 0 then undefined else sourceLine;
     SourceLocation.referenceTraceLen := extra_at this (index + 7) |}.

Definition getReferenceTrace (this : t) (index : Z) : ReferenceTrace :=
  let srcLoc := extra_at this (index + 1) in
  if strict_eq srcLoc 0 then ReferenceTraceSentinel srcLoc
  else ReferenceTraceNode (extra_at this index) srcLoc.

Definition getNotes (this : t) (index : Z) : list Z :=
  let notesLen := ErrorMessage.notesLen (getErrorMessage this index) in
  let start := index + 4 in
  Z.of_N <$>
    subarray (extra this) start
      (ToIntegerOrInfinity (add (Int start) (ToNumber notesLen))).

Definition getReferenceTraces (this : t) (index : Z) : list Z :=
  let referenceTraceLen :=
    SourceLocation.referenceTraceLen (getSourceLocation this index) in
  let start := index + 8 in
  Z.of_N <$>
    subarray (extra this) start
      (ToIntegerOrInfinity (add (Int start) (ToNumber referenceTraceLen))).

(** An [undefined] index counts as 0 in [indexOf] and in [subarray]. *)
Definition nullTerminatedString (this : t) (index : value) : string :=
  let i := ToIntegerOrInfinity (ToNumber index) in
  let end_ := indexOf (stringBytes this) Byte.x00 i in
  Buffer_toString (subarray (stringBytes this) i end_).

Definition getCompileLogOutput (this : t) : string :=
  nullTerminatedString this
    (ErrorMessageList.compileLogText (getErrorMessageList this)).

(** [str] is the array of pieces the renderer pushes to; it is threaded
    through.  The recursion on notes is not structural (a malformed
    bundle may list a message among its own notes): [fuel] bounds its
    depth. *)
Fixpoint renderErrorMessage (fuel : nat) (this : t) (str : list string)
    (options : RenderOptions) (errMsgIndex : Z) (kind : string) (indent : Z)
    : completion (list string) :=
  match fuel with
  | O => OutOfFuel
  | S fuel' =>
    let errMsg := getErrorMessage this errMsgIndex in
    let msg := nullTerminatedString this (ErrorMessage.msg errMsg) in
    if truthy (ErrorMessage.srcLoc errMsg) then
      let src :=
        getSourceLocation this
          (ToIntegerOrInfinity (ToNumber (ErrorMessage.srcLoc errMsg))) in
      prefixWhitespace ← String_repeat " " (Int indent);
      let str :=
        str ++ [ prefixWhitespace;
                 nullTerminatedString this (SourceLocation.srcPath src);
                 ":" +:+ Number_toString
                           (add (ToNumber (SourceLocation.line src)) (Int 1))
                 +:+ ":" +:+ Number_toString
                           (add (ToNumber (SourceLocation.column src)) (Int 1))
                 +:+ ": " +:+ kind +:+ ": " ] in
      let indentedMsg := String_replace msg LF prefixWhitespace in
      str ←
        (if strict_eq (ErrorMessage.count errMsg) 1 then
           mret (str ++ [indentedMsg; LF])
         else
           count ← value_toString (ErrorMessage.count errMsg);
           mret (str ++ [indentedMsg +:+ " (" +:+ count +:+ " times)" +:+ LF]));
      if truthy (SourceLocation.sourceLine src) && includeSourceLine options then
        let line := nullTerminatedString this (SourceLocation.sourceLine src) in
        let str := str ++ [String_replace line TAB " "; LF] in
        let beforeCaret :=
          sub (ToNumber (SourceLocation.spanMain src))
              (ToNumber (SourceLocation.spanStart src)) in
        let afterCaret :=
          Math_min (Int 0)
            (sub (sub (ToNumber (SourceLocation.spanEnd src))
                      (ToNumber (SourceLocation.spanMain src)))
                 (Int 1)) in
        spaces ←
          String_repeat " "
            (sub (ToNumber (SourceLocation.column src)) beforeCaret);
        before ← String_repeat "~" beforeCaret;
        after ← String_repeat "~" afterCaret;
        mret (str ++ [spaces; before; "^"; after; LF])
      else mret str
    else
      spaces ← String_repeat " " (Int indent);
      let str := str ++ [spaces +:+ kind +:+ ": "] in
      str ←
        (if strict_eq (ErrorMessage.count errMsg) 1 then
           mret (str ++ [msg; LF])
         else
           count ← value_toString (ErrorMessage.count errMsg);
           mret (str ++ [msg +:+ " (" +:+ count +:+ " times)" +:+ LF]));
      foldl
        (fun acc note =>
           str ← acc;
           renderErrorMessage fuel' this str options note "note" (indent + 4))
        (mret str) (getNotes this errMsgIndex)
  end.

Definition defaultRenderOptions : RenderOptions :=
  {| includeReferenceTrace := true;
     includeSourceLine := true;
     includeLogText := true |}.

Definition toString (fuel : nat) (this : t) (options : RenderOptions)
    : completion string :=
  str ←
    foldl
      (fun acc errMsg =>
         str ← acc;
         renderErrorMessage fuel this str options errMsg "error" 0)
      (mret []) (getMessages this);
  let str :=
    if includeLogText options then
      let logText := getCompileLogOutput this in
      if (String.length logText =? 0)%nat then str
      else str ++ [LF +:+ "Compile Log Output:" +:+ LF; logText]
    else str in
  mret (join str).

(** The [count] words stored from position [start] on, cut at the end of
    the extra buffer: the trailing run of a record, used to state what
    [getNotes] and [getReferenceTraces] return. *)
Definition run (this : t) (start : Z) (count : value) : list Z :=
  Z.of_N <$>
    take (Z.to_nat (default 0 count)) (drop (Z.to_nat start) (extra this)).

(** The body of the loop over the notes of a message in
    [renderErrorMessage], used to state how the renderer recurses. *)
Definition render_notes (fuel : nat) (this : t) (options : RenderOptions)
    (indent : Z) (acc : completion (list string)) (note : Z)
    : completion (list string) :=
  str ← acc; renderErrorMessage fuel this str options note "note" (indent + 4).

End ErrorBundle.

(** ** The compile-server client: [zigServe] *)

Module ZigCompileServer.
Import Js.

Inductive ZigServerResult : Type :=
  | Success (path : string)
  | Failure (errorBundle : ErrorBundle.t).

(** The promise [zigServe] returns.  An error is its message. *)
Inductive Promise : Type :=
  | Pending
  | Resolved (result : ZigServerResult)
  | Rejected (error : string).

(** What the stdout handler of one [zigServe] call reads and writes:
    the captured [dataBuffer], the promise, the calls made to
    [options.onProgress] (oldest first), and whether [childProcess.kill()]
    was called. *)
Record Session : Type := mkSession {
  dataBuffer : list byte;
  promise : Promise;
  progress : list string;
  killed : bool;
}.

(** The session as [zigServe] sets it up: [Buffer.alloc(0)], nothing
    settled. *)
Definition initial : Session :=
  {| dataBuffer := Buffer_alloc 0; promise := Pending;
     progress := []; killed := false |}.

(** The 16 bytes written to the child's stdin. *)
Definition messageBuffer : list byte :=
  let messageBuffer := Buffer_alloc 16 in
  let messageBuffer := writeUInt32LE messageBuffer 1 0 in
  let messageBuffer := writeUInt32LE messageBuffer 0 4 in
  let messageBuffer := writeUInt32LE messageBuffer 0 8 in
  writeUInt32LE messageBuffer 0 12.

(** Settling a promise that is already settled does nothing. *)
Definition resolve (result : ZigServerResult) (s : Session) : Session :=
  match promise s with
  | Pending =>
      {| dataBuffer := dataBuffer s; promise := Resolved result;
         progress := progress s; killed := killed s |}
  | _ => s
  end.

Definition reject (error : string) (s : Session) : Session :=
  match promise s with
  | Pending =>
      {| dataBuffer := dataBuffer s; promise := Rejected error;
         progress := progress s; killed := killed s |}
  | _ => s
  end.

Definition onProgress (message : string) (s : Session) : Session :=
  {| dataBuffer := dataBuffer s; promise := promise s;
     progress := progress s ++ [message]; killed := killed s |}.

Definition kill (s : Session) : Session :=
  {| dataBuffer := dataBuffer s; promise := promise s;
     progress := progress s; killed := true |}.

Definition set_dataBuffer (buf : list byte) (s : Session) : Session :=
  {| dataBuffer := buf; promise := promise s;
     progress := progress s; killed := killed s |}.

(** The words [0 .. n-1], the indices [extra.forEach] visits. *)
Definition indices (n : Z) : list Z := Z.of_nat <$> seq 0 (Z.to_nat n).

(** The listener of [childProcess.stdout.on("data", ...)], run on one
    chunk [stdout].  An exception leaves the listener (and is not caught
    by [zigServe]). *)
Definition onStdoutData (s : Session) (stdout : list byte) : completion Session :=
  let dataBuffer := dataBuffer s ++ stdout in
  let s := set_dataBuffer dataBuffer s in
  if 8 <=? Z.of_nat (length dataBuffer) then
    tag ← readUInt32LE dataBuffer 0;
    bytesLen ← readUInt32LE dataBuffer 4;
    let data := subarray dataBuffer 8 (8 + bytesLen) in
    let s := set_dataBuffer (subarray_from dataBuffer (8 + bytesLen)) s in
    match tag with
    | 0 => mret s
    | 1 =>
        if Z.of_nat (length data) <? 8 then
          mret (reject "received error bundle with insufficient size" s)
        else
          extraLen ← readUInt32LE data 0;
          stringBytesLen ← readUInt32LE data 4;
          let errorBundleData := subarray_from data 8 in
          if negb (bytesLen =? 8 + 4 * extraLen + stringBytesLen) then
            mret (reject "error bundle data mismatch" s)
          else
            let stringBytes := subarray_from errorBundleData (4 * extraLen) in
            let extraData := subarray errorBundleData 0 (4 * extraLen) in
            extra ←
              mapM (fun index => Z.to_N <$> readUInt32LE extraData (4 * index))
                   (indices extraLen);
            mret (resolve
                    (Failure (ErrorBundle.new (Some stringBytes) (Some extra)))
                    s)
    | 2 => mret (onProgress (Buffer_toString data) s)
    | 3 => mret (resolve (Success (Buffer_toString (subarray_from data 1))) s)
    | _ =>
        mret (kill (reject ("received unexpected message tag " +:+ pretty tag) s))
    end
  else mret s.

(** The listener of [childProcess.stderr.on("data", ...)]. *)
Definition onStderrData (s : Session) (stderr : string) : Session :=
  onProgress stderr s.

(** The arguments the child is started with. *)
Definition listen_args (args : list string) : list string :=
  args ++ ["--listen=-"].

(** The callback of [cp.execFile], called when the child has ended:
    with its error, if any. *)
Definition onExit (zigExePath : string) (args : list string)
    (error : option string) (s : Session) : Session :=
  reject
    (default ("failed to run '" +:+ zigExePath +:+ " "
              +:+ join_with " " (listen_args args) +:+ "'")
       error)
    s.

(** The handler run on the chunks of the child's output in turn; an
    exception ends the run. *)
Definition feed (s : Session) (chunks : list (list byte)) : completion Session :=
  foldl (fun acc chunk => s ← acc; onStdoutData s chunk) (mret s) chunks.

(** The wire format of a frame: tag, payload length, payload. *)
Definition u32le (v : Z) : list byte := writeUInt32LE (Buffer_alloc 4) v 0.

Definition frame (tag : Z) (payload : list byte) : list byte :=
  u32le tag ++ u32le (Z.of_nat (length payload)) ++ payload.

(** The words of an extra buffer on the wire. *)
Fixpoint words_le (words : list N) : list byte :=
  match words with
  | [] => []
  | w :: words' => u32le (Z.of_N w) ++ words_le words'
  end.

(** The payload of an error-bundle frame: the two counts, the words, the
    string bytes. *)
Definition error_bundle_payload (words : list N) (strings : list byte) : list byte :=
  u32le (Z.of_nat (length words)) ++ u32le (Z.of_nat (length strings))
  ++ words_le words ++ strings.

(** The texts the progress frames (tag 2) of a list of frames carry. *)
Fixpoint progress_texts (frames : list (Z * list byte)) : list string :=
  match frames with
  | [] => []
  | (tag, payload) :: frames' =>
      if tag =? 2 then Buffer_toString payload :: progress_texts frames'
      else progress_texts frames'
  end.

End ZigCompileServer.

(** ** [src/debugConfigurationProvider.ts] *)

Module DebugConfigurationProvider.
Import Js.

(** *** Arrays of strings *)

Fixpoint find_index {A} (p : A -> bool) (a : list A) : option nat :=
  match a with
  | [] => None
  | x :: a' => if p x then Some O else S <$> find_index p a'
  end.

(** [a.findIndex(p)]: the first position whose element satisfies [p], or
    -1. *)
Definition findIndex {A} (p : A -> bool) (a : list A) : Z :=
  match find_index p a with
  | Some i => Z.of_nat i
  | None => -1
  end.

(** [a.slice(start, end)] and [a.slice(start)]: the bounds are clamped
    like those of [subarray]. *)
Definition slice {A} (a : list A) (start end_ : Z) : list A :=
  subarray a start end_.

Definition slice_from {A} (a : list A) (start : Z) : list A :=
  subarray_from a start.

(** [`${v}`] for a string or [undefined]. *)
Definition template (v : option string) : string := default "undefined" v.

(** Truthiness of a string or [undefined]: the empty string is falsy. *)
Definition truthy_string (v : option string) : bool :=
  match v with
  | Some EmptyString | None => false
  | Some _ => true
  end.

(** [v === s] for a string or [undefined] [v]. *)
Definition is_string (v : option string) (s : string) : bool :=
  match v with
  | Some x => String.eqb x s
  | None => false
  end.

Definition splitBuildAndRunArgs (args : list string) : list string * list string :=
  let argsSeperator := findIndex (fun arg => String.eqb arg "--") args in
  if argsSeperator =? -1 then (args, [])
  else (slice args 0 argsSeperator, slice_from args (argsSeperator + 1)).

(** *** The configuration object and what surrounds the provider *)

(** The properties of a debug configuration the provider reads or writes. *)
Record DebugConfiguration : Type := mkConfiguration {
  type : string;
  name : string;
  request : option string;
  args : option (list string);
  program : option string;
}.

(** What a provider method returns: a configuration, [null] or
    [undefined]. *)
Inductive ProviderResult : Type :=
  | Configuration (debugConfiguration : DebugConfiguration)
  | Null
  | Undefined.

Record WorkspaceFolder (Uri : Type) : Type := mkFolder {
  uri : Uri;
  fsPath : string;
}.
Arguments mkFolder {Uri} uri fsPath.
Arguments uri {Uri} _.
Arguments fsPath {Uri} _.

(** The functions of Node, of VS Code and of [zigUtil] the provider
    calls; they are not part of these sources. *)
Record Platform (Uri : Type) : Type := mkPlatform {
  existsSync : string -> bool;
  path_join : string -> string -> string;
  basename : string -> string;
  dirname : string -> string;
  Uri_file : string -> Uri;
  getZigPath : option string;  (* [None]: the call throws *)
}.
Arguments existsSync {Uri} _ _.
Arguments path_join {Uri} _ _ _.
Arguments basename {Uri} _ _.
Arguments dirname {Uri} _ _.
Arguments Uri_file {Uri} _ _.
Arguments getZigPath {Uri} _.

(** The calls the provider makes, in order. *)
Inductive Call (Uri : Type) : Type :=
  | showErrorMessage (message : string)
  | showWarningMessage (message : string) (items : list string)
  | executeCommand (command : string) (argument : string) (enable : option bool)
  | showQuickPick (labels : list string)
  | zigServe (title zigExePath : string) (args : list string) (cwd : option string)
  | updateBuildDiagnosticsFromErrorBundle (baseUri : Uri)
      (errorBundle : ErrorBundle.t).
Arguments showErrorMessage {Uri} message.
Arguments showWarningMessage {Uri} message items.
Arguments executeCommand {Uri} command argument enable.
Arguments showQuickPick {Uri} labels.
Arguments zigServe {Uri} title zigExePath args cwd.
Arguments updateBuildDiagnosticsFromErrorBundle {Uri} baseUri errorBundle.

(** The outcome of a provider method: what it returns, the configuration
    object as the method leaves it (it is modified in place), and the
    calls made. *)
Record Outcome (Uri : Type) : Type := mkOutcome {
  result : ProviderResult;
  after : DebugConfiguration;
  calls : list (Call Uri);
}.
Arguments mkOutcome {Uri} result after calls.
Arguments result {Uri} _.
Arguments after {Uri} _.
Arguments calls {Uri} _.

(** [debugConfiguration.args = a], and likewise for [type] and
    [program]: the object is updated in place. *)
Definition set_args (a : list string) (c : DebugConfiguration) : DebugConfiguration :=
  {| type := type c; name := name c; request := request c;
     args := Some a; program := program c |}.

Definition set_type (t : string) (c : DebugConfiguration) : DebugConfiguration :=
  {| type := t; name := name c; request := request c;
     args := args c; program := program c |}.

Definition set_program (p : string) (c : DebugConfiguration) : DebugConfiguration :=
  {| type := type c; name := name c; request := request c;
     args := args c; program := Some p |}.

Section provider.
Context {Uri : Type} (platform : Platform Uri).

Definition folderHasBuildSystem (folder : option (WorkspaceFolder Uri)) : bool :=
  match folder with
  | Some folder =>
      existsSync platform (path_join platform (fsPath folder) "build.zig")
  | None => false
  end.

(** A launch configuration of type [zig], as the provider writes them. *)
Definition launch (name : string) (args : list string) : DebugConfiguration :=
  {| type := "zig"; name := name; request := Some "launch";
     args := Some args; program := None |}.


(** The answer to the warning about the missing CodeLLDB extension. *)
Inductive WarningResponse : Type :=
  | Install
  | ShowExtension.

(** What the user and the editor answer during
    [resolveDebugConfiguration]. *)
Record Answers : Type := mkAnswers {
  lldbInstalled : bool;
  warningResponse : option WarningResponse;
  activeDocumentLanguageId : option string;
  selection : option string;
}.

Definition lldbWarning : string :=
  "Debugging requires the [CodeLLDB](https://github.com/vadimcn/codelldb) extension".

Definition quickPickLabels : list string :=
  ["run"; "test"; ""; "open launch.json"].

(** The part of [resolveDebugConfiguration] from the check of [args]
    on. *)
Definition checkArgs (folder : option (WorkspaceFolder Uri))
    (debugConfiguration : DebugConfiguration) (calls : list (Call Uri))
    : Outcome Uri :=
  match args debugConfiguration with
  | None =>
      mkOutcome Null debugConfiguration
        (calls ++ [showErrorMessage
                     "invalid launch.json configuration: missing property 'args'"])
  | Some a =>
      if negb (truthy_string (head a)) then
        mkOutcome Null debugConfiguration
          (calls ++ [showErrorMessage
                       "invalid launch.json configuration: 'args' must have at least one argument"])
      else
        if is_string (head a) "build" then
          let hasExplicitBuildFile :=
            truthy_string
              (List.find (fun value => String.eqb value "--build-file") a) in
          if negb hasExplicitBuildFile then
            match folder with
            | None =>
                mkOutcome Undefined debugConfiguration
                  (calls ++ [showErrorMessage
                               "Debug configuration for 'zig build' requires a workspace folder. Open a workspace folder or specify '--build-file' in 'args'."])
            | Some _ =>
                let debugConfiguration :=
                  set_args (a ++ ["--build-file"; "${workspaceFolder}/build.zig"])
                    debugConfiguration in
                mkOutcome (Configuration debugConfiguration) debugConfiguration calls
            end
          else mkOutcome (Configuration debugConfiguration) debugConfiguration calls
        else if is_string (head a) "run" || is_string (head a) "test" then
          mkOutcome (Configuration debugConfiguration) debugConfiguration calls
        else
          mkOutcome Null debugConfiguration
            (calls ++ [showErrorMessage
                         ("unexpected build mode " +:+ template (head a))])
  end.

Definition resolveDebugConfiguration (answers : Answers)
    (folder : option (WorkspaceFolder Uri))
    (debugConfiguration : DebugConfiguration) : Outcome Uri :=
  if negb (lldbInstalled answers) then
    let calls := [showWarningMessage lldbWarning ["Install"; "Show Extension"]] in
    match warningResponse answers with
    | Some Install =>
        mkOutcome Undefined debugConfiguration
          (calls ++ [executeCommand "extension.open" "vadimcn.vscode-lldb" None;
                     executeCommand "workbench.extensions.installExtension"
                       "vadimcn.vscode-lldb" (Some true)])
    | Some ShowExtension =>
        mkOutcome Undefined debugConfiguration
          (calls ++ [executeCommand "extension.open" "vadimcn.vscode-lldb" None])
    | None => mkOutcome Undefined debugConfiguration calls
    end
  else
    let hasDebugConfiguration :=
      match request debugConfiguration with Some _ => true | None => false end in
    if negb hasDebugConfiguration then
      if folderHasBuildSystem folder then mkOutcome Null debugConfiguration []
      else
        match activeDocumentLanguageId answers with
        | None => mkOutcome Undefined debugConfiguration []
        | Some languageId =>
            if negb (String.eqb languageId "zig") then
              mkOutcome Undefined debugConfiguration []
            else
              let calls := [showQuickPick quickPickLabels] in
              let label := selection answers in
              if is_string label "run" || is_string label "test" then
                mkOutcome
                  (Configuration
                     {| type := "zig";
                        name := "Launch zig " +:+ template label +:+ " ${file}";
                        request := Some "launch";
                        args := Some [template label; "${file}"];
                        program := None |})
                  debugConfiguration calls
              else if is_string label "open launch.json" then
                mkOutcome Null debugConfiguration calls
              else
                match label with
                | None => mkOutcome Undefined debugConfiguration calls
                | Some _ => checkArgs folder debugConfiguration calls
                end
        end
    else checkArgs folder debugConfiguration [].

(** [buildArgs[1 + buildArgs.findIndex(...)]]. *)
Definition buildFilePathOf (buildArgs : list string) : option string :=
  get buildArgs
    (1 + findIndex (fun value => String.eqb value "--build-file") buildArgs).

Definition hardCodedProgram : string := "/home/techatrix/repos/zls/zig-out/bin/zls".

(** [served] is the promise [zigServe] returns, as the provider finds
    it: settled, or pending for ever (the provider then waits).  The
    progress reports are left out. *)
Definition resolveDebugConfigurationWithSubstitutedVariables
    (served : ZigCompileServer.Promise)
    (folder : option (WorkspaceFolder Uri))
    (debugConfiguration : DebugConfiguration) : completion (Outcome Uri) :=
  let args := default [] (DebugConfigurationProvider.args debugConfiguration) in
  let '(buildArgs, runArgs) := splitBuildAndRunArgs args in
  let debugConfiguration := set_type "lldb" debugConfiguration in
  let debugConfiguration := set_args runArgs debugConfiguration in
  let mode := head args in
  if is_string mode "build" then
    let buildFilePath := buildFilePathOf buildArgs in
    if negb (truthy_string buildFilePath) then
      mret (mkOutcome Null debugConfiguration [])
    else if negb (existsSync platform (template buildFilePath)) then
      mret (mkOutcome Null debugConfiguration
              [showErrorMessage
                 ("could not find '" +:+ template buildFilePath +:+ "'")])
    else
      let debugConfiguration := set_program hardCodedProgram debugConfiguration in
      mret (mkOutcome (Configuration debugConfiguration) debugConfiguration [])
  else if is_string mode "run" || is_string mode "test" then
    let sourceFiles :=
      List.filter (fun arg => negb (String.prefix "-" arg))
        (slice_from buildArgs 1) in
    let sourceFileBasenames := basename platform <$> sourceFiles in
    let sourcesString := join_with " " sourceFileBasenames in
    baseUri ←
      match folder with
      | Some folder => mret (uri folder)
      | None =>
          match head sourceFiles with
          | Some file => mret (Uri_file platform (dirname platform file))
          | None => Throw TypeError
          end
      end;
    let buildMode := if is_string mode "run" then "build-exe" else "test" in
    let failed :=
      showErrorMessage
        ("failed to compile 'zig " +:+ template mode +:+ " " +:+ sourcesString
         +:+ "'") in
    match getZigPath platform with
    | None => mret (mkOutcome Undefined debugConfiguration [failed])
    | Some zigExePath =>
        let calls :=
          [zigServe
             ("compiling 'zig " +:+ template mode +:+ " " +:+ sourcesString
              +:+ "'...")
             zigExePath ([buildMode] ++ slice_from buildArgs 1)
             (fsPath <$> folder)] in
        match served with
        | ZigCompileServer.Pending => OutOfFuel
        | ZigCompileServer.Rejected _ =>
            mret (mkOutcome Undefined debugConfiguration (calls ++ [failed]))
        | ZigCompileServer.Resolved (ZigCompileServer.Success path) =>
            let debugConfiguration := set_program path debugConfiguration in
            mret (mkOutcome (Configuration debugConfiguration)
                    debugConfiguration calls)
        | ZigCompileServer.Resolved (ZigCompileServer.Failure errorBundle) =>
            mret (mkOutcome Undefined debugConfiguration
                    (calls ++ [updateBuildDiagnosticsFromErrorBundle baseUri
                                 errorBundle]))
        end
    end
  else
    mret (mkOutcome Null debugConfiguration
            [showErrorMessage ("unexpected build mode " +:+ template mode)]).

End provider.

(** *** Vocabulary of the statements *)

(** Arguments a configuration can be launched with: the mode [build],
    [run] or [test] first, and for a build the build file named. *)
Definition launchable (a : list string) : Prop :=
  exists mode rest,
    a = mode :: rest /\
    ((mode = "build" /\ "--build-file" ∈ rest) \/ mode = "run" \/ mode = "test").

(** The source files of a compilation: the build arguments that do not
    start with a dash. *)
Definition sourceFilesOf (buildArgs : list string) : list string :=
  List.filter (fun arg => negb (String.prefix "-" arg)) buildArgs.

End DebugConfigurationProvider.

(** *** [updateBuildDiagnosticsFromErrorBundle] and [sourceLocationToRange] *)

Module BuildDiagnostics.
Import Js JsObject.

Inductive DiagnosticSeverity : Type := Error.

Record DiagnosticRelatedInformation (Uri Range : Type) : Type := mkRelated {
  location_range : Range;
  location_uri : Uri;
  related_message : string;
}.
Arguments mkRelated {Uri Range} _ _ _.
Arguments location_range {Uri Range} _.
Arguments location_uri {Uri Range} _.
Arguments related_message {Uri Range} _.

Record Diagnostic (Uri Range : Type) : Type := mkDiagnostic {
  range : Range;
  message : string;
  severity : DiagnosticSeverity;
  source : string;
  relatedInformation : option (list (DiagnosticRelatedInformation Uri Range));
}.
Arguments mkDiagnostic {Uri Range} _ _ _ _ _.
Arguments range {Uri Range} _.
Arguments message {Uri Range} _.
Arguments severity {Uri Range} _.
Arguments source {Uri Range} _.
Arguments relatedInformation {Uri Range} _.

(** The functions of Node and of VS Code the diagnostics are built
    with.  [Range_new] is the constructor of [vscode.Range], which may
    throw; [inherited] tells the names of the properties every object
    inherits. *)
Record Editor (Uri Range : Type) : Type := mkEditor {
  isAbsolute : string -> bool;
  Uri_file : string -> Uri;
  Uri_joinPath : Uri -> string -> Uri;
  Range_new : value -> value -> value -> number -> completion Range;
  inherited : string -> bool;
}.
Arguments isAbsolute {Uri Range} _ _.
Arguments Uri_file {Uri Range} _ _.
Arguments Uri_joinPath {Uri Range} _ _ _.
Arguments Range_new {Uri Range} _ _ _ _ _.
Arguments inherited {Uri Range} _ _.

(** The calls made to the editor, in order. *)
Inductive Call (Uri Range : Type) : Type :=
  | showErrorMessage (message : string)
  | clear
  | set (uri : Uri) (diagnostics : list (Diagnostic Uri Range)).
Arguments showErrorMessage {Uri Range} message.
Arguments clear {Uri Range}.
Arguments set {Uri Range} uri diagnostics.

Section diagnostics.
Context {Uri Range : Type} (editor : Editor Uri Range).

Definition sourceLocationToRange (sourceLocation : SourceLocation.t)
    : completion Range :=
  let spanLength :=
    sub (ToNumber (SourceLocation.spanEnd sourceLocation))
        (ToNumber (SourceLocation.spanStart sourceLocation)) in
  Range_new editor
    (SourceLocation.line sourceLocation)
    (SourceLocation.column sourceLocation)
    (SourceLocation.line sourceLocation)
    (add (ToNumber (SourceLocation.column sourceLocation)) spanLength).

(** [path.isAbsolute(srcPath) ? Uri.file(srcPath)
     : Uri.joinPath(baseUri, srcPath)]. *)
Definition srcUriOf (baseUri : Uri) (srcPath : string) : Uri :=
  if isAbsolute editor srcPath then Uri_file editor srcPath
  else Uri_joinPath editor baseUri srcPath.

(** The entry pushed to [relatedInformation] for one note of an error
    located at [srcLoc] in [srcPath]. *)
Definition relatedInformationOf (baseUri : Uri) (errorBundle : ErrorBundle.t)
    (srcLoc : SourceLocation.t) (srcPath : string) (noteIndex : Z)
    : completion (DiagnosticRelatedInformation Uri Range) :=
  let noteMessage := ErrorBundle.getErrorMessage errorBundle noteIndex in
  let noteSrcLoc :=
    if truthy (ErrorMessage.srcLoc noteMessage) then
      ErrorBundle.getSourceLocation errorBundle
        (ToIntegerOrInfinity (ToNumber (ErrorMessage.srcLoc noteMessage)))
    else srcLoc in
  let srcUri := srcUriOf baseUri srcPath in
  range ← sourceLocationToRange noteSrcLoc;
  mret (mkRelated range srcUri
          (ErrorBundle.nullTerminatedString errorBundle
             (ErrorMessage.msg noteMessage))).

(** The diagnostic built for a root message that has a source location,
    with the path it is filed under. *)
Definition diagnosticOf (baseUri : Uri) (errorBundle : ErrorBundle.t)
    (msgIndex : Z) : completion (string * Diagnostic Uri Range) :=
  let errorMessage := ErrorBundle.getErrorMessage errorBundle msgIndex in
  let message :=
    ErrorBundle.nullTerminatedString errorBundle (ErrorMessage.msg errorMessage) in
  let srcLoc :=
    ErrorBundle.getSourceLocation errorBundle
      (ToIntegerOrInfinity (ToNumber (ErrorMessage.srcLoc errorMessage))) in
  let srcPath :=
    ErrorBundle.nullTerminatedString errorBundle (SourceLocation.srcPath srcLoc) in
  range ← sourceLocationToRange srcLoc;
  let notes := ErrorBundle.getNotes errorBundle msgIndex in
  related ← mapM (relatedInformationOf baseUri errorBundle srcLoc srcPath) notes;
  mret (srcPath,
        mkDiagnostic range message Error "zig"
          (match notes with
           | [] => None
           | _ :: _ => Some related
           end)).

(** The loop over the root messages: the messages shown so far and the
    [diagnostics] object. *)
Definition collect (baseUri : Uri) (errorBundle : ErrorBundle.t)
    (acc : completion (list string * dictionary (list (Diagnostic Uri Range))))
    (msgIndex : Z)
    : completion (list string * dictionary (list (Diagnostic Uri Range))) :=
  state ← acc;
  let errorMessage := ErrorBundle.getErrorMessage errorBundle msgIndex in
  let message :=
    ErrorBundle.nullTerminatedString errorBundle (ErrorMessage.msg errorMessage) in
  if negb (truthy (ErrorMessage.srcLoc errorMessage)) then
    mret (state.1 ++ [message], state.2)
  else
    filed ← diagnosticOf baseUri errorBundle msgIndex;
    if inherited editor filed.1 then Throw TypeError
    else
      let diagnosticArray := default [] (own state.2 filed.1) in
      mret (state.1, assign state.2 filed.1 (diagnosticArray ++ [filed.2])).

Definition updateBuildDiagnosticsFromErrorBundle (baseUri : Uri)
    (errorBundle : ErrorBundle.t) : completion (list (Call Uri Range)) :=
  state ←
    foldl (collect baseUri errorBundle) (mret ([], []))
      (ErrorBundle.getMessages errorBundle);
  mret ((showErrorMessage <$> state.1)
        ++ [clear]
        ++ ((fun e => set (srcUriOf baseUri e.1) e.2) <$> entries state.2)).

End diagnostics.

(** *** Vocabulary of the statements *)

(** A message with a source location. *)
Definition located (errorBundle : ErrorBundle.t) (msgIndex : Z) : bool :=
  truthy (ErrorMessage.srcLoc (ErrorBundle.getErrorMessage errorBundle msgIndex)).

Definition locationOf (errorBundle : ErrorBundle.t) (msgIndex : Z)
    : SourceLocation.t :=
  ErrorBundle.getSourceLocation errorBundle
    (ToIntegerOrInfinity
       (ToNumber
          (ErrorMessage.srcLoc (ErrorBundle.getErrorMessage errorBundle msgIndex)))).

(** The path text of the source location of a message. *)
Definition pathOf (errorBundle : ErrorBundle.t) (msgIndex : Z) : string :=
  ErrorBundle.nullTerminatedString errorBundle
    (SourceLocation.srcPath (locationOf errorBundle msgIndex)).

(** The text of a message. *)
Definition textOf (errorBundle : ErrorBundle.t) (msgIndex : Z) : string :=
  ErrorBundle.nullTerminatedString errorBundle
    (ErrorMessage.msg (ErrorBundle.getErrorMessage errorBundle msgIndex)).

(** The root messages located in [srcPath], and those without source
    location. *)
Definition locatedIn (errorBundle : ErrorBundle.t) (srcPath : string)
    (messages : list Z) : list Z :=
  List.filter
    (fun m => located errorBundle m && String.eqb (pathOf errorBundle m) srcPath)
    messages.

Definition unlocated (errorBundle : ErrorBundle.t) (messages : list Z) : list Z :=
  List.filter (fun m => negb (located errorBundle m)) messages.

End BuildDiagnostics.

(** ** Concrete bundles and frames *)

Module Samples.

(** String storage: the reserved zero byte, then ["msg"], ["a.zig"] and
    ["x = 1;"] at 1, 5 and 11. *)
Definition strings : list byte :=
  [Byte.x00] ++ list_byte_of_string "msg" ++ [Byte.x00]
  ++ list_byte_of_string "a.zig" ++ [Byte.x00]
  ++ list_byte_of_string "x = 1;" ++ [Byte.x00].

(** One root message (at 4) with a source location (at 10) and two notes
    (at 21 and 25); the source location has one reference trace (at 19), a
    sentinel record announcing 5 hidden references. *)
Definition bundle (spanStart spanMain spanEnd : N) : ErrorBundle.t :=
  ErrorBundle.mk strings
    [ 1; 3; 0;
      4;
      1; 1; 10; 2;  21; 25;
      5; 0; 2; spanStart; spanMain; spanEnd; 11; 1;  19;
      5; 0;
      1; 1; 0; 0;
      1; 3; 0; 0 ]%N.

(** A message (at 4) that declares 9 notes in a buffer holding one more
    word. *)
Definition truncated : ErrorBundle.t :=
  ErrorBundle.mk strings [1; 3; 0; 4; 1; 1; 0; 9; 7]%N.

(** String storage that does not start with the zero byte. *)
Definition unreserved : ErrorBundle.t :=
  ErrorBundle.mk (list_byte_of_string "A" ++ [Byte.x00]) [0; 3; 0]%N.

(** The artifact-path frame of the scenario: a sub-tag byte, then
    ["bin"]. *)
Definition bin_payload : list byte := Byte.x00 :: list_byte_of_string "bin".
Definition bin_frame : list byte := ZigCompileServer.frame 3 bin_payload.

Definition version_frame : list byte :=
  ZigCompileServer.frame 0 (list_byte_of_string "0.11.0").

(** An error-bundle payload whose counts (2 words, 4 string bytes) ask
    for 20 bytes, with 19 present. *)
Definition mismatched_payload : list byte :=
  ZigCompileServer.u32le 2 ++ ZigCompileServer.u32le 4
  ++ (ZigCompileServer.u32le 7 ++ ZigCompileServer.u32le 9
      ++ list_byte_of_string "abc").

End Samples.

Module ProviderSamples.
Import DebugConfigurationProvider.

(** A platform in which every file exists and a URI is its path. *)
Definition platform : Platform string :=
  mkPlatform string (fun _ => true) (fun a b => a +:+ "/" +:+ b) id id id
    (Some "zig").

Definition folder : WorkspaceFolder string := mkFolder "/w" "/w".

Definition answers : Answers := mkAnswers true None None None.

(** An editor whose ranges are the four arguments of the constructor,
    and for which paths starting with a slash are absolute. *)
Definition editor
    : BuildDiagnostics.Editor string (Js.value * Js.value * Js.value * Js.number) :=
  BuildDiagnostics.mkEditor _ _
    (fun srcPath => String.prefix "/" srcPath)
    (fun srcPath => "file://" +:+ srcPath)
    (fun baseUri srcPath => baseUri +:+ "/" +:+ srcPath)
    (fun startLine startCharacter endLine endCharacter =>
       Js.Normal (startLine, startCharacter, endLine, endCharacter))
    (fun key => String.eqb key "constructor").

(** A bundle whose only root message is located in a file named
    ["constructor"]. *)
Definition inheritedName : ErrorBundle.t :=
  ErrorBundle.mk
    ([Byte.x00] ++ list_byte_of_string "constructor" ++ [Byte.x00])
    [1; 3; 0; 4; 1; 1; 8; 0; 1; 0; 0; 0; 0; 0; 0; 0]%N.

End ProviderSamples.

(** * Properties *)

Import Js.

(** ** Typed arrays *)

Section typed_arrays.
Context {A : Type}.
Implicit Types a : list A.

Lemma subarray_take_drop a b e :
  0 <= b -> b <= e ->
  subarray a b e = take (Z.to_nat (e - b)) (drop (Z.to_nat b) a).
Proof.
  intros Hb He. unfold subarray, relative_index.
  rewrite !(proj2 (Z.ltb_ge _ _)) by lia.
  destruct (Z.le_gt_cases b (Z.of_nat (length a))) as [Hin|Hout].
  - rewrite (Z.min_l b) by lia.
    destruct (Z.le_gt_cases e (Z.of_nat (length a))).
    + rewrite Z.min_l by lia. done.
    + rewrite Z.min_r by lia.
      rewrite !take_ge; first done; rewrite length_drop; lia.
  - rewrite !drop_ge by lia. by rewrite !take_nil.
Qed.

Lemma subarray_empty a b e : 0 <= e -> e <= b -> subarray a b e = [].
Proof.
  intros He Hb. unfold subarray, relative_index.
  rewrite !(proj2 (Z.ltb_ge _ _)) by lia.
  replace (Z.to_nat _) with 0%nat by lia. done.
Qed.

Lemma subarray_from_drop a b :
  0 <= b -> subarray_from a b = drop (Z.to_nat b) a.
Proof.
  intros Hb. unfold subarray_from.
  destruct (Z.le_gt_cases b (Z.of_nat (length a))).
  - rewrite subarray_take_drop by lia.
    apply take_ge. rewrite length_drop. lia.
  - rewrite subarray_empty by lia. by rewrite drop_ge by lia.
Qed.

Lemma subarray_middle (x y z : list A) :
  subarray (x ++ y ++ z) (Z.of_nat (length x))
    (Z.of_nat (length x) + Z.of_nat (length y)) = y.
Proof.
  rewrite subarray_take_drop by lia.
  rewrite Nat2Z.id, drop_app_length.
  replace (Z.to_nat _) with (length y) by lia.
  by rewrite take_app_length.
Qed.

Lemma subarray_from_suffix (x y : list A) :
  subarray_from (x ++ y) (Z.of_nat (length x)) = y.
Proof.
  rewrite subarray_from_drop by lia.
  by rewrite Nat2Z.id, drop_app_length.
Qed.

Lemma get_lookup a i : 0 <= i -> get a i = a !! Z.to_nat i.
Proof. intros. unfold get. by rewrite (proj2 (Z.ltb_ge _ _)). Qed.

Lemma get_Some_lt a i x : get a i = Some x -> 0 <= i < Z.of_nat (length a).
Proof.
  unfold get. destruct (Z.ltb_spec i 0); first done.
  intros Hl%lookup_lt_Some. lia.
Qed.

End typed_arrays.

(** ** Reading and writing 32-bit words *)

Lemma byte_to_of_Z z : byte_to_Z (byte_of_Z z) = z mod 256.
Proof.
  unfold byte_to_Z, byte_of_Z.
  pose proof (Z.mod_pos_bound z 256 eq_refl) as Hm.
  destruct (Byte.of_N (Z.to_N (z mod 256))) as [b|] eqn:Hb.
  - apply Byte.to_of_N in Hb. simpl. rewrite Hb. lia.
  - apply Byte.of_N_None_iff in Hb. lia.
Qed.

Lemma byte_to_Z_range b : 0 <= byte_to_Z b < 256.
Proof. unfold byte_to_Z. pose proof (Byte.to_N_bounded b). lia. Qed.

Lemma u32le_bytes v :
  ZigCompileServer.u32le v =
    [byte_of_Z v; byte_of_Z (v / 2 ^ 8); byte_of_Z (v / 2 ^ 16);
     byte_of_Z (v / 2 ^ 24)].
Proof. reflexivity. Qed.

Lemma u32le_length v : length (ZigCompileServer.u32le v) = 4%nat.
Proof. reflexivity. Qed.

Lemma u32_digits v :
  0 <= v < 2 ^ 32 ->
  v mod 256 + (v / 2 ^ 8) mod 256 * 2 ^ 8 + (v / 2 ^ 16) mod 256 * 2 ^ 16
    + (v / 2 ^ 24) mod 256 * 2 ^ 24 = v.
Proof.
  intros Hv. change (2 ^ 8) with 256. change (2 ^ 16) with 65536.
  change (2 ^ 24) with 16777216. change (2 ^ 32) with 4294967296 in Hv.
  Z.to_euclidean_division_equations. lia.
Qed.

Lemma readUInt32LE_u32le (x z : list byte) v :
  0 <= v < 2 ^ 32 ->
  readUInt32LE (x ++ ZigCompileServer.u32le v ++ z) (Z.of_nat (length x)) = Normal v.
Proof.
  intros Hv. unfold readUInt32LE.
  change 4 with (Z.of_nat (length (ZigCompileServer.u32le v))) at 1.
  rewrite subarray_middle, u32le_bytes.
  rewrite !byte_to_of_Z, u32_digits by done.
  rewrite !length_app. simpl length.
  rewrite (proj2 (Z.leb_le _ _)) by lia.
  rewrite (proj2 (Z.leb_le _ _)) by lia. done.
Qed.

Lemma readUInt32LE_range buf offset v :
  readUInt32LE buf offset = Normal v -> 0 <= v < 2 ^ 32.
Proof.
  unfold readUInt32LE.
  destruct (subarray _ _ _) as [|b0 [|b1 [|b2 [|b3 [|]]]]]; try done.
  destruct (_ && _); last done. intros [= <-].
  pose proof (byte_to_Z_range b0). pose proof (byte_to_Z_range b1).
  pose proof (byte_to_Z_range b2). pose proof (byte_to_Z_range b3).
  change (2 ^ 8) with 256. change (2 ^ 16) with 65536.
  change (2 ^ 24) with 16777216. change (2 ^ 32) with 4294967296. lia.
Qed.

Section frames.
Import ZigCompileServer.

(** The header of a frame at the head of the buffer is read back. *)
Lemma frame_header tag (payload rest : list byte) :
  0 <= tag < 2 ^ 32 -> Z.of_nat (length payload) < 2 ^ 32 ->
  let buf := frame tag payload ++ rest in
  (8 <=? Z.of_nat (length buf)) = true /\
  readUInt32LE buf 0 = Normal tag /\
  readUInt32LE buf 4 = Normal (Z.of_nat (length payload)) /\
  subarray buf 8 (8 + Z.of_nat (length payload)) = payload /\
  subarray_from buf (8 + Z.of_nat (length payload)) = rest.
Proof.
  intros Ht Hl buf. subst buf. split_and!; [unfold frame..|].
  - apply Z.leb_le. rewrite !length_app, !u32le_length. lia.
  - rewrite <-!(assoc_L (++)).
    apply (readUInt32LE_u32le [] _ tag Ht).
  - rewrite <-!(assoc_L (++)).
    apply (readUInt32LE_u32le (u32le tag) _ (Z.of_nat (length payload))). lia.
  - rewrite <-!(assoc_L (++)), (assoc_L (++) (u32le tag)).
    change 8 with
      (Z.of_nat (length (u32le tag ++ u32le (Z.of_nat (length payload))))).
    apply subarray_middle.
  - replace (8 + Z.of_nat (length payload)) with
      (Z.of_nat (length (frame tag payload))).
    + apply subarray_from_suffix.
    + unfold frame. rewrite !length_app, !u32le_length. lia.
Qed.
End frames.

(** ** The words of an error bundle on the wire *)

Section words.
Import ZigCompileServer.

Lemma words_le_length words :
  Z.of_nat (length (words_le words)) = 4 * Z.of_nat (length words).
Proof.
  induction words as [|w ws IH]; first done.
  cbn [words_le]. rewrite length_app, u32le_length. cbn [length]. lia.
Qed.

Lemma words_le_app xs ys : words_le (xs ++ ys) = words_le xs ++ words_le ys.
Proof.
  induction xs as [|x xs IH]; first done.
  cbn [app words_le]. by rewrite IH, (assoc_L (++)).
Qed.

Lemma read_words (done_ todo : list N) (tail : list byte) :
  Forall (fun w => (w < 2 ^ 32)%N) todo ->
  mapM (fun index : Z =>
          Z.to_N <$> readUInt32LE (words_le (done_ ++ todo) ++ tail) (4 * index))
       (Z.of_nat <$> seq (length done_) (length todo))
  = Normal todo.
Proof.
  revert done_. induction todo as [|w ws IH]; intros done_ Hws; first done.
  apply Forall_cons in Hws as [Hw Hws].
  cbn [length seq fmap list_fmap mapM].
  assert (readUInt32LE (words_le (done_ ++ w :: ws) ++ tail)
            (4 * Z.of_nat (length done_)) = Normal (Z.of_N w)) as ->.
  { rewrite words_le_app. cbn [words_le].
    rewrite <-!(assoc_L (++)), <-words_le_length.
    apply readUInt32LE_u32le. lia. }
  cbn [fmap completion_fmap mbind completion_bind].
  specialize (IH (done_ ++ [w]) Hws).
  rewrite <-(assoc_L (++)), length_app, Nat.add_1_r in IH. cbn [app] in IH.
  rewrite IH.
  cbn [mbind completion_bind mret completion_ret]. by rewrite N2Z.id.
Qed.

End words.

(** ** The error bundle: field projections *)

Section accessors.
Import ErrorBundle.

Lemma extra_at_nonneg this i w : extra_at this i = Some w -> 0 <= w.
Proof.
  unfold extra_at. destruct (get _ _); intros [= <-]. lia.
Qed.

Lemma extra_at_lt this i w :
  extra_at this i = Some w -> 0 <= i < Z.of_nat (length (extra this)).
Proof.
  unfold extra_at. destruct (get _ _) eqn:Hget; intros [= <-].
  by apply get_Some_lt in Hget.
Qed.

Lemma extra_at_undefined this i :
  0 <= i -> extra_at this i = undefined -> Z.of_nat (length (extra this)) <= i.
Proof.
  intros Hi Hn. unfold extra_at in Hn. rewrite get_lookup in Hn by lia.
  apply fmap_None, lookup_ge_None in Hn. lia.
Qed.

(** A present optional field keeps its word. *)
Lemma present_optional_fields this index w :
  w <> 0 ->
  (extra_at this (index + 2) = Some w ->
   ErrorMessage.srcLoc (getErrorMessage this index) = Some w) /\
  (extra_at this (index + 6) = Some w ->
   SourceLocation.sourceLine (getSourceLocation this index) = Some w).
Proof.
  intros Hw. split; intros Hword; cbn; rewrite Hword; cbn;
    by rewrite (proj2 (Z.eqb_neq _ _)).
Qed.

(** Whatever the record, the sentinel [getReferenceTrace] builds holds 0. *)
Lemma getReferenceTrace_sentinel this index :
  extra_at this (index + 1) = Some 0 ->
  getReferenceTrace this index = ReferenceTraceSentinel (Some 0).
Proof. intros Hword. unfold getReferenceTrace. by rewrite Hword. Qed.

Lemma getReferenceTrace_hidden this index hiddenReferences :
  getReferenceTrace this index = ReferenceTraceSentinel hiddenReferences ->
  hiddenReferences = Some 0.
Proof.
  unfold getReferenceTrace.
  destruct (extra_at this (index + 1)) as [w|]; cbn; last done.
  destruct (Z.eqb_spec w 0) as [->|]; last done. by intros [= <-].
Qed.

(** *** Trailing runs *)

Lemma trailing_subarray this start i :
  0 <= start ->
  Z.of_N <$>
    subarray (extra this) start
      (ToIntegerOrInfinity (add (Int start) (ToNumber (extra_at this i))))
  = run this start (extra_at this i).
Proof.
  intros Hstart. unfold run.
  destruct (extra_at this i) as [n|] eqn:Hn;
    cbn [ToNumber add ToIntegerOrInfinity default from_option id].
  - apply extra_at_nonneg in Hn.
    rewrite subarray_take_drop by lia.
    by replace (start + n - start) with n by lia.
  - by rewrite subarray_empty by lia.
Qed.

Lemma getNotes_run this index :
  0 <= index ->
  getNotes this index =
    run this (index + 4) (ErrorMessage.notesLen (getErrorMessage this index)).
Proof.
  intros. unfold getNotes. cbv zeta.
  apply (trailing_subarray this (index + 4) (index + 3)). lia.
Qed.

Lemma getReferenceTraces_run this index :
  0 <= index ->
  getReferenceTraces this index =
    run this (index + 8)
      (SourceLocation.referenceTraceLen (getSourceLocation this index)).
Proof.
  intros. unfold getReferenceTraces. cbv zeta.
  apply (trailing_subarray this (index + 8) (index + 7)). lia.
Qed.

Lemma run_length this start n :
  0 <= start -> 0 <= n ->
  Z.of_nat (length (run this start (Some n))) =
    Z.min n (Z.max 0 (Z.of_nat (length (extra this)) - start)).
Proof.
  intros. unfold run. rewrite length_fmap, length_take, length_drop.
  cbn [default from_option id]. lia.
Qed.

Lemma run_get this start n k :
  0 <= start -> 0 <= k < n ->
  start + n <= Z.of_nat (length (extra this)) ->
  get (run this start (Some n)) k = extra_at this (start + k).
Proof.
  intros Hstart Hk Hfit. unfold run, extra_at. cbn [default from_option id].
  rewrite !get_lookup by lia.
  rewrite list_lookup_fmap, lookup_take_lt by lia.
  rewrite lookup_drop. do 3 f_equal. lia.
Qed.

End accessors.

(** ** The renderer's caret line *)

Lemma String_repeat_negative s n :
  n < 0 -> String_repeat s (Int n) = Throw RangeError.
Proof.
  intros Hn. unfold String_repeat. cbn [ToIntegerOrInfinity].
  by rewrite (proj2 (Z.ltb_lt _ _)).
Qed.

(** [Math.min(0, ...)] bounds the post-caret count from above: it is
    never positive, and negative as soon as [spanEnd <= spanMain]. *)
Lemma afterCaret_not_positive spanEnd spanMain :
  ToIntegerOrInfinity
    (Math_min (Int 0) (sub (sub spanEnd spanMain) (Int 1))) <= 0.
Proof. destruct spanEnd, spanMain; cbn; lia. Qed.

(** ** The stdout handler *)

Section handler.
Import ZigCompileServer.

Ltac frame_at_head Hbuf tag payload rest Hlen :=
  let Hlong := fresh in
  let Htag := fresh in
  let Hbytes := fresh in
  let Hdata := fresh in
  let Hrest := fresh in
  unfold onStdoutData; rewrite Hbuf;
  destruct (frame_header tag payload rest ltac:(lia) Hlen)
    as (Hlong & Htag & Hbytes & Hdata & Hrest);
  rewrite Hlong, Htag, Hbytes;
  cbn [mbind completion_bind mret completion_ret];
  rewrite Hdata, Hrest;
  clear Hlong Htag Hbytes Hdata Hrest.

(** The bytes sent to the child: an update message and an exit message,
    both without payload. *)
Lemma messageBuffer_frames : messageBuffer = frame 1 [] ++ frame 0 [].
Proof. reflexivity. Qed.

(** Fewer than 8 buffered bytes: the chunk is only stored. *)
Lemma short_buffer_waits s stdout :
  Z.of_nat (length (dataBuffer s ++ stdout)) < 8 ->
  onStdoutData s stdout =
    Normal {| dataBuffer := dataBuffer s ++ stdout; promise := promise s;
              progress := progress s; killed := killed s |}.
Proof.
  intros Hshort. unfold onStdoutData.
  by rewrite (proj2 (Z.leb_gt _ _)).
Qed.

(** A complete progress frame at the head of the buffer is forwarded and
    leaves the promise as it was. *)
Lemma progress_frame_forwards s stdout payload rest :
  dataBuffer s ++ stdout = frame 2 payload ++ rest ->
  Z.of_nat (length payload) < 2 ^ 32 ->
  onStdoutData s stdout =
    Normal {| dataBuffer := rest; promise := promise s;
              progress := progress s ++ [Buffer_toString payload];
              killed := killed s |}.
Proof.
  intros Hbuf Hlen. by frame_at_head Hbuf 2 payload rest Hlen.
Qed.

(** X16.  A complete, consistent error-bundle frame at the head of the buffer
    resolves the pending session with the bundle it carries. *)
Lemma error_bundle_frame_decodes s stdout (words : list N) (strings rest : list byte) :
  let payload := error_bundle_payload words strings in
  promise s = Pending ->
  dataBuffer s ++ stdout = frame 1 payload ++ rest ->
  Z.of_nat (length payload) < 2 ^ 32 ->
  Forall (fun w => (w < 2 ^ 32)%N) words ->
  onStdoutData s stdout =
    Normal {| dataBuffer := rest;
              promise := Resolved (Failure (ErrorBundle.mk strings words));
              progress := progress s;
              killed := killed s |}.
Proof.
  intros payload Hpending Hbuf Hlen Hwords.
  assert (Z.of_nat (length payload) =
            8 + 4 * Z.of_nat (length words) + Z.of_nat (length strings)) as Hsize.
  { unfold payload, error_bundle_payload. rewrite !length_app, !u32le_length.
    pose proof (words_le_length words). lia. }
  frame_at_head Hbuf 1 payload rest Hlen.
  rewrite (proj2 (Z.ltb_ge _ _)) by lia.
  assert (readUInt32LE payload 0 = Normal (Z.of_nat (length words))) as ->.
  { apply (readUInt32LE_u32le [] _ (Z.of_nat (length words))). lia. }
  assert (readUInt32LE payload 4 = Normal (Z.of_nat (length strings))) as ->.
  { apply (readUInt32LE_u32le (u32le (Z.of_nat (length words))) _
             (Z.of_nat (length strings))). lia. }
  cbn [mbind completion_bind mret completion_ret].
  rewrite (proj2 (Z.eqb_eq _ _)) by done. cbn [negb].
  assert (subarray_from payload 8 = words_le words ++ strings) as ->.
  { unfold payload, error_bundle_payload.
    rewrite (assoc_L (++) (u32le _) (u32le _)).
    apply (subarray_from_suffix (u32le _ ++ u32le _)). }
  rewrite <-words_le_length, subarray_from_suffix.
  replace (subarray (words_le words ++ strings) 0
             (Z.of_nat (length (words_le words)))) with (words_le words).
  2:{ symmetry. apply (subarray_middle [] (words_le words) strings). }
  unfold indices. rewrite Nat2Z.id.
  pose proof (read_words [] words [] Hwords) as Hread.
  rewrite app_nil_r in Hread. cbn [app length] in Hread.
  rewrite Hread.
  cbn [mbind completion_bind mret completion_ret].
  unfold resolve, set_dataBuffer, ErrorBundle.new.
  cbn [promise dataBuffer progress killed default from_option id].
  by rewrite Hpending.
Qed.

(** ** The claims about the stdout handler *)

(** C1 (the code departs from the claim).  Reassembly is not
    chunk-invariant.  The serialized artifact-path frame of the scenario,
    fed whole, resolves with the path ["bin"]; cut after its tenth byte it
    is dispatched as soon as the 8 header bytes are there, with the part
    of the payload received so far, and resolves with ["b"].  And of two
    complete frames arriving in one chunk only the first is dispatched:
    the session stays pending, where the same bytes fed frame by frame
    resolve it. *)
Theorem chunking_changes_outcome :
  promise <$> feed initial [Samples.bin_frame]
    = Normal (Resolved (Success "bin")) /\
  promise <$> feed initial [take 10 Samples.bin_frame; drop 10 Samples.bin_frame]
    = Normal (Resolved (Success "b")) /\
  promise <$> feed initial [Samples.version_frame ++ Samples.bin_frame]
    = Normal Pending /\
  promise <$> feed initial [Samples.version_frame; Samples.bin_frame]
    = Normal (Resolved (Success "bin")).
Proof. by vm_compute. Qed.

(** C5.  A complete error-bundle frame (tag 1) at the head of the buffer
    of a pending session: when its payload is shorter than 8 bytes the
    session is rejected; when the payload starts with the counts
    [extraWordCount] and [stringByteCount] and its length differs from
    [8 + 4 * extraWordCount + stringByteCount] the session is rejected
    too.  No bundle is decoded in either case. *)
Theorem error_bundle_frame_mismatch_rejects s stdout payload rest :
  promise s = Pending ->
  dataBuffer s ++ stdout = frame 1 payload ++ rest ->
  Z.of_nat (length payload) < 2 ^ 32 ->
  (Z.of_nat (length payload) < 8 ->
   onStdoutData s stdout =
     Normal {| dataBuffer := rest;
               promise := Rejected "received error bundle with insufficient size";
               progress := progress s;
               killed := killed s |}) /\
  (forall extraWordCount stringByteCount body,
     payload = u32le extraWordCount ++ u32le stringByteCount ++ body ->
     0 <= extraWordCount < 2 ^ 32 ->
     0 <= stringByteCount < 2 ^ 32 ->
     Z.of_nat (length payload) <> 8 + 4 * extraWordCount + stringByteCount ->
     onStdoutData s stdout =
       Normal {| dataBuffer := rest;
                 promise := Rejected "error bundle data mismatch";
                 progress := progress s;
                 killed := killed s |}).
Proof.
  intros Hpending Hbuf Hlen. split.
  - intros Hshort.
    frame_at_head Hbuf 1 payload rest Hlen.
    rewrite (proj2 (Z.ltb_lt _ _)) by done.
    unfold reject, set_dataBuffer. cbn [promise dataBuffer progress killed].
    by rewrite Hpending.
  - intros e n body Hpayload He Hn Hne.
    frame_at_head Hbuf 1 payload rest Hlen.
    assert (8 <= Z.of_nat (length payload)) as Hlong.
    { rewrite Hpayload, !length_app, !u32le_length. lia. }
    rewrite (proj2 (Z.ltb_ge _ _)) by done.
    assert (readUInt32LE payload 0 = Normal e) as ->.
    { rewrite Hpayload. apply (readUInt32LE_u32le [] _ e He). }
    assert (readUInt32LE payload 4 = Normal n) as ->.
    { rewrite Hpayload. apply (readUInt32LE_u32le (u32le e) _ n Hn). }
    cbn [mbind completion_bind mret completion_ret].
    rewrite (proj2 (Z.eqb_neq _ _)) by done.
    unfold reject, set_dataBuffer. cbn [negb promise dataBuffer progress killed].
    by rewrite Hpending.
Qed.

Lemma error_bundle_frame_mismatch_rejects_witness :
  onStdoutData initial (frame 1 [Byte.x01]) =
    Normal {| dataBuffer := [];
              promise := Rejected "received error bundle with insufficient size";
              progress := []; killed := false |} /\
  onStdoutData initial (frame 1 Samples.mismatched_payload) =
    Normal {| dataBuffer := [];
              promise := Rejected "error bundle data mismatch";
              progress := []; killed := false |}.
Proof.
  split.
  - refine (proj1 (error_bundle_frame_mismatch_rejects initial
                     (frame 1 [Byte.x01]) [Byte.x01] [] eq_refl eq_refl _) _);
      by vm_compute.
  - refine (proj2 (error_bundle_frame_mismatch_rejects initial
                     (frame 1 Samples.mismatched_payload)
                     Samples.mismatched_payload [] eq_refl eq_refl _)
                  2 4 _ eq_refl _ _ _); by vm_compute.
Defined.

(** C9.  A complete artifact-path frame (tag 3) at the head of the buffer
    of a pending session resolves it with [Success]; the path is the
    payload without its first byte, decoded as text.  The witness is the
    scenario: payload [0x00, "b", "i", "n"], path ["bin"]. *)
Theorem artifact_path_frame_resolves s stdout payload rest :
  promise s = Pending ->
  dataBuffer s ++ stdout = frame 3 payload ++ rest ->
  Z.of_nat (length payload) < 2 ^ 32 ->
  onStdoutData s stdout =
    Normal {| dataBuffer := rest;
              promise := Resolved (Success (Buffer_toString (drop 1 payload)));
              progress := progress s;
              killed := killed s |}.
Proof.
  intros Hpending Hbuf Hlen.
  frame_at_head Hbuf 3 payload rest Hlen.
  rewrite subarray_from_drop by lia.
  unfold resolve, set_dataBuffer. cbn [promise dataBuffer progress killed].
  by rewrite Hpending.
Qed.

Lemma artifact_path_frame_resolves_witness :
  onStdoutData initial (frame 3 [Byte.x00; Byte.x62; Byte.x69; Byte.x6e]) =
    Normal {| dataBuffer := []; promise := Resolved (Success "bin");
              progress := []; killed := false |}.
Proof.
  apply (artifact_path_frame_resolves initial
           (frame 3 [Byte.x00; Byte.x62; Byte.x69; Byte.x6e])
           [Byte.x00; Byte.x62; Byte.x69; Byte.x6e] []).
  - reflexivity.
  - reflexivity.
  - by vm_compute.
Defined.

End handler.

(** ** The claims about the error bundle *)

Section bundle_claims.
Import ErrorBundle.

(** C2 (the code departs from the claim).  The post-caret count is
    [Math.min(0, spanEnd - spanMain - 1)]: bounded by zero from above, not
    from below.  On a message whose source location has an embedded
    source line, rendered with [includeSourceLine]: with
    [spanEnd = spanMain] the count is -1 and the renderer throws a
    RangeError from [repeat]; with [spanEnd = spanMain + 3] the caret line
    is ["~~^"], without the two tildes of the post-caret span. *)
Theorem caret_line_negative_repeat :
  renderErrorMessage 1 (Samples.bundle 0 2 2) [] defaultRenderOptions 4 "error" 0
    = Throw RangeError /\
  renderErrorMessage 1 (Samples.bundle 0 2 5) [] defaultRenderOptions 4 "error" 0
    = Normal [""; "a.zig"; ":1:3: error: "; "msg"; LF;
              "x = 1;"; LF;
              ""; "~~"; "^"; ""; LF].
Proof. by vm_compute. Qed.

(** C3 (the code departs from the claim).  A reference-trace record whose
    second word is 0 does decode as a sentinel, but [hiddenReferences] is
    filled with that second word, which is 0: the count stored in the
    record (5 here, in its first word) is lost. *)
Theorem sentinel_drops_hidden_count :
  extra_at (Samples.bundle 0 2 5) 19 = Some 5 /\
  extra_at (Samples.bundle 0 2 5) (19 + 1) = Some 0 /\
  getReferenceTrace (Samples.bundle 0 2 5) 19 = ReferenceTraceSentinel (Some 0).
Proof. by vm_compute. Qed.

(** C4, as stated, fails: string storage that starts with a byte other
    than zero gives non-empty text at index 0, also through
    [getCompileLogOutput] with [compileLogText = 0]. *)
Lemma string_zero_not_always_empty :
  ErrorMessageList.compileLogText (getErrorMessageList Samples.unreserved)
    = Some 0 /\
  nullTerminatedString Samples.unreserved (Some 0) <> "" /\
  getCompileLogOutput Samples.unreserved <> "".
Proof. by vm_compute. Qed.

(** C4, amended.  When the string storage is empty or starts with the
    zero byte (the reserved position 0 of the format), looking up string
    index 0 gives the empty text, and [getCompileLogOutput] gives the
    empty text whenever [compileLogText] is 0. *)
Theorem absent_string_is_empty this :
  stringBytes this = [] \/ head (stringBytes this) = Some Byte.x00 ->
  nullTerminatedString this (Some 0) = "" /\
  (ErrorMessageList.compileLogText (getErrorMessageList this) = Some 0 ->
   getCompileLogOutput this = "").
Proof.
  intros Hfirst.
  assert (nullTerminatedString this (Some 0) = "") as Hempty.
  { unfold nullTerminatedString.
    destruct this as [[|b sb] ex]; cbn [stringBytes] in *; first done.
    destruct Hfirst as [?|[= ->]]; first done. done. }
  split; first done.
  intros Hlog. unfold getCompileLogOutput. by rewrite Hlog.
Qed.

Lemma absent_string_is_empty_witness :
  nullTerminatedString (Samples.bundle 0 2 5) (Some 0) = "" /\
  getCompileLogOutput (Samples.bundle 0 2 5) = "".
Proof.
  destruct (absent_string_is_empty (Samples.bundle 0 2 5)) as [Hzero Hlog].
  - right. reflexivity.
  - split.
    + exact Hzero.
    + apply Hlog. reflexivity.
Defined.

(** C6.  [errorMessageCount] is 0 on a bundle built without an extra
    buffer and on any bundle whose extra buffer is empty; otherwise it is
    the [len] field of the root list, the word at extra index 0. *)
Theorem errorMessageCount_root_len :
  (forall stringBytes, errorMessageCount (new stringBytes None) = Some 0) /\
  (forall this,
     match extra this with
     | [] => errorMessageCount this = Some 0
     | len :: _ =>
         errorMessageCount this = Some (Z.of_N len) /\
         errorMessageCount this = ErrorMessageList.len (getErrorMessageList this) /\
         errorMessageCount this = extra_at this 0
     end).
Proof.
  split; first done.
  intros [sb [|w ex]]; done.
Qed.

(** C7.  A message whose [srcLoc] word (at [index + 2]) is 0 decodes
    with no source location: the field is [undefined], not the index 0,
    and the renderer's test of it fails.  A source location whose
    [sourceLine] word (at [index + 6]) is 0 decodes with no source line. *)
Theorem absent_optional_fields this index :
  (extra_at this (index + 2) = Some 0 ->
   ErrorMessage.srcLoc (getErrorMessage this index) = undefined /\
   truthy (ErrorMessage.srcLoc (getErrorMessage this index)) = false) /\
  (extra_at this (index + 6) = Some 0 ->
   SourceLocation.sourceLine (getSourceLocation this index) = undefined /\
   truthy (SourceLocation.sourceLine (getSourceLocation this index)) = false).
Proof.
  split; intros Hword; cbn; rewrite Hword; done.
Qed.

Lemma absent_optional_fields_witness :
  ErrorMessage.srcLoc (getErrorMessage (Samples.bundle 0 2 5) 21) = undefined /\
  SourceLocation.sourceLine (getSourceLocation (Samples.bundle 0 2 0) 10)
    = Some 11 /\
  SourceLocation.sourceLine
    (getSourceLocation (ErrorBundle.mk [] [5; 0; 0; 0; 0; 0; 0; 0]%N) 0)
    = undefined.
Proof.
  split; [|split].
  - apply (absent_optional_fields (Samples.bundle 0 2 5) 21). reflexivity.
  - reflexivity.
  - apply (absent_optional_fields (ErrorBundle.mk [] [5; 0; 0; 0; 0; 0; 0; 0]%N) 0).
    reflexivity.
Defined.

(** C8.  Count integrity.  For a message whose [notesLen] words after
    its four fixed fields all lie in the extra buffer, [getNotes] has
    length [notesLen] and its [k]-th element is the word at
    [index + 4 + k]; likewise [getReferenceTraces], with
    [referenceTraceLen] and the words from [index + 8] on. *)
Theorem trailing_runs_exact this messageIndex sourceLocationIndex :
  (forall notesLen,
     0 <= messageIndex ->
     ErrorMessage.notesLen (getErrorMessage this messageIndex) = Some notesLen ->
     messageIndex + 4 + notesLen <= Z.of_nat (length (extra this)) ->
     Z.of_nat (length (getNotes this messageIndex)) = notesLen /\
     forall k, 0 <= k < notesLen ->
       get (getNotes this messageIndex) k = extra_at this (messageIndex + 4 + k))
  /\
  (forall referenceTraceLen,
     0 <= sourceLocationIndex ->
     SourceLocation.referenceTraceLen
       (getSourceLocation this sourceLocationIndex) = Some referenceTraceLen ->
     sourceLocationIndex + 8 + referenceTraceLen
       <= Z.of_nat (length (extra this)) ->
     Z.of_nat (length (getReferenceTraces this sourceLocationIndex))
       = referenceTraceLen /\
     forall k, 0 <= k < referenceTraceLen ->
       get (getReferenceTraces this sourceLocationIndex) k
         = extra_at this (sourceLocationIndex + 8 + k)).
Proof.
  split.
  - intros n Hi Hn Hfit. rewrite getNotes_run, Hn by done.
    pose proof (extra_at_nonneg _ _ _ Hn). split.
    + rewrite run_length by lia. lia.
    + intros k Hk. apply run_get; lia.
  - intros n Hi Hn Hfit. rewrite getReferenceTraces_run, Hn by done.
    pose proof (extra_at_nonneg _ _ _ Hn). split.
    + rewrite run_length by lia. lia.
    + intros k Hk. apply run_get; lia.
Qed.

Lemma trailing_runs_exact_witness :
  (Z.of_nat (length (getNotes (Samples.bundle 0 2 5) 4)) = 2 /\
   get (getNotes (Samples.bundle 0 2 5) 4) 1
     = extra_at (Samples.bundle 0 2 5) (4 + 4 + 1)) /\
  (Z.of_nat (length (getReferenceTraces (Samples.bundle 0 2 5) 10)) = 1 /\
   get (getReferenceTraces (Samples.bundle 0 2 5) 10) 0
     = extra_at (Samples.bundle 0 2 5) (10 + 8 + 0)).
Proof.
  destruct (trailing_runs_exact (Samples.bundle 0 2 5) 4 10) as [Hnotes Htraces].
  split.
  - destruct (Hnotes 2) as [Hlen Hget]; [by vm_compute..|].
    split; [exact Hlen|]. apply Hget. by vm_compute.
  - destruct (Htraces 1) as [Hlen Hget]; [by vm_compute..|].
    split; [exact Hlen|]. apply Hget. by vm_compute.
Defined.

(** C10.  [getNotes] and [getReferenceTraces] are total, and at any
    non-negative index they return the declared trailing run cut at the
    end of the extra buffer: words of the buffer only, as many as the
    minimum of the declared count and the number of words after the fixed
    fields.  When the count field itself lies outside the buffer, nothing
    is left after the fixed fields and the result is empty. *)
Theorem trailing_runs_truncated this index :
  0 <= index ->
  let len := Z.of_nat (length (extra this)) in
  (forall notesLen,
     ErrorMessage.notesLen (getErrorMessage this index) = Some notesLen ->
     getNotes this index =
       Z.of_N <$> take (Z.to_nat notesLen)
                    (drop (Z.to_nat (index + 4)) (extra this)) /\
     Z.of_nat (length (getNotes this index))
       = Z.min notesLen (len - (index + 4))) /\
  (ErrorMessage.notesLen (getErrorMessage this index) = undefined ->
     len <= index + 3 /\ getNotes this index = []) /\
  (forall referenceTraceLen,
     SourceLocation.referenceTraceLen (getSourceLocation this index)
       = Some referenceTraceLen ->
     getReferenceTraces this index =
       Z.of_N <$> take (Z.to_nat referenceTraceLen)
                    (drop (Z.to_nat (index + 8)) (extra this)) /\
     Z.of_nat (length (getReferenceTraces this index))
       = Z.min referenceTraceLen (len - (index + 8))) /\
  (SourceLocation.referenceTraceLen (getSourceLocation this index) = undefined ->
     len <= index + 7 /\ getReferenceTraces this index = []).
Proof.
  intros Hi len. split_and!.
  - intros n Hn. rewrite getNotes_run, Hn by done.
    pose proof (extra_at_nonneg _ _ _ Hn). pose proof (extra_at_lt _ _ _ Hn).
    split; first done. rewrite run_length by lia. lia.
  - intros Hn. rewrite getNotes_run, Hn by done. split; last done.
    apply extra_at_undefined in Hn; lia.
  - intros n Hn. rewrite getReferenceTraces_run, Hn by done.
    pose proof (extra_at_nonneg _ _ _ Hn). pose proof (extra_at_lt _ _ _ Hn).
    split; first done. rewrite run_length by lia. lia.
  - intros Hn. rewrite getReferenceTraces_run, Hn by done. split; last done.
    apply extra_at_undefined in Hn; lia.
Qed.

Lemma trailing_runs_truncated_witness :
  0 <= 4 /\
  getNotes Samples.truncated 4 = [7] /\
  Z.of_nat (length (getNotes Samples.truncated 4)) = Z.min 9 (9 - (4 + 4)) /\
  getReferenceTraces Samples.truncated 4 = [].
Proof.
  assert (0 <= 4) as Hindex by (by vm_compute).
  destruct (trailing_runs_truncated Samples.truncated 4 Hindex)
    as (Hnotes & _ & _ & Htraces).
  destruct (Hnotes 9 eq_refl) as [Hrun Hlen].
  destruct (Htraces eq_refl) as [_ Hnone].
  split; [exact Hindex|]. split; [|split].
  - rewrite Hrun. reflexivity.
  - exact Hlen.
  - exact Hnone.
Defined.

End bundle_claims.

(** ** More about the error bundle *)

Section more_accessors.
Import ErrorBundle.

Lemma extra_at_beyond this i j :
  0 <= i -> i <= j -> extra_at this i = undefined -> extra_at this j = undefined.
Proof.
  intros Hi Hj Hn. apply extra_at_undefined in Hn; last done.
  unfold extra_at. rewrite get_lookup by lia.
  rewrite (proj2 (lookup_ge_None _ _)); first done. lia.
Qed.

(** X1.  The root list.  With fewer than two words there is no [start] and
    [getMessages] is empty.  Otherwise it is the [len] words stored from
    [start] on, cut at the end of the buffer; when they all lie in the
    buffer there are [len] of them and the [k]-th is the word at
    [start + k]. *)
Theorem getMessages_root_list this :
  (Z.of_nat (length (extra this)) < 2 -> getMessages this = []) /\
  (forall len start,
     extra_at this 0 = Some len -> extra_at this 1 = Some start ->
     getMessages this =
       Z.of_N <$> take (Z.to_nat len) (drop (Z.to_nat start) (extra this)) /\
     (start + len <= Z.of_nat (length (extra this)) ->
      Z.of_nat (length (getMessages this)) = len /\
      forall k, 0 <= k < len ->
        get (getMessages this) k = extra_at this (start + k))).
Proof.
  split.
  - intros Hshort. unfold getMessages, getErrorMessageList.
    cbn [ErrorMessageList.start ErrorMessageList.len].
    assert (extra_at this 1 = None) as ->.
    { unfold extra_at. rewrite get_lookup by lia.
      rewrite (proj2 (lookup_ge_None _ _)); first done. lia. }
    cbn [ToNumber add ToIntegerOrInfinity].
    by rewrite subarray_empty by lia.
  - intros len start Hlen Hstart.
    pose proof (extra_at_nonneg _ _ _ Hlen).
    pose proof (extra_at_nonneg _ _ _ Hstart).
    assert (getMessages this = run this start (Some len)) as ->.
    { unfold getMessages, getErrorMessageList.
      cbn [ErrorMessageList.start ErrorMessageList.len].
      rewrite Hlen, Hstart. cbn [ToNumber add ToIntegerOrInfinity].
      rewrite subarray_take_drop by lia.
      unfold run. cbn [default from_option id].
      by replace (start + len - start) with len by lia. }
    split; first done. intros Hfit. split.
    + rewrite run_length by lia. lia.
    + intros k Hk. apply run_get; lia.
Qed.

Lemma getMessages_root_list_witness :
  getMessages (Samples.bundle 0 2 5) = [4] /\
  getMessages (ErrorBundle.mk [] [3]%N) = [].
Proof.
  split.
  - destruct (proj2 (getMessages_root_list (Samples.bundle 0 2 5)) 1 3
                eq_refl eq_refl) as [Hrun _].
    rewrite Hrun. reflexivity.
  - apply (proj1 (getMessages_root_list (ErrorBundle.mk [] [3]%N))).
    by vm_compute.
Defined.

(** *** Strings *)

Lemma find_byte_first x (body post : list byte) :
  x ∉ body -> find_byte x (body ++ x :: post) = Some (length body).
Proof.
  induction body as [|y body IH]; intros Hnot; cbn [app find_byte length].
  - by rewrite (Byte.byte_dec_lb eq_refl).
  - apply not_elem_of_cons in Hnot as [Hne Hnot].
    destruct (Byte.eqb y x) eqn:Heq.
    + apply Byte.byte_dec_bl in Heq. congruence.
    + by rewrite IH.
Qed.

Lemma find_byte_none x (body : list byte) :
  x ∉ body -> find_byte x body = None.
Proof.
  induction body as [|y body IH]; intros Hnot; cbn [find_byte]; first done.
  apply not_elem_of_cons in Hnot as [Hne Hnot].
  destruct (Byte.eqb y x) eqn:Heq.
  - apply Byte.byte_dec_bl in Heq. congruence.
  - by rewrite IH.
Qed.

(** X2.  A terminated string: the text at an index is the decoding of the
    bytes from there up to the first zero byte, which is left out. *)
Theorem nullTerminatedString_terminated this (pre body post : list byte) :
  stringBytes this = pre ++ body ++ Byte.x00 :: post ->
  Byte.x00 ∉ body ->
  nullTerminatedString this (Some (Z.of_nat (length pre))) = Buffer_toString body.
Proof.
  intros Hbytes Hbody. unfold nullTerminatedString.
  cbn [ToNumber ToIntegerOrInfinity].
  assert (indexOf (stringBytes this) Byte.x00 (Z.of_nat (length pre))
          = Z.of_nat (length pre) + Z.of_nat (length body)) as ->.
  { unfold indexOf. rewrite (proj2 (Z.ltb_ge _ _)) by lia.
    rewrite Hbytes, Nat2Z.id, drop_app_length.
    by rewrite find_byte_first. }
  by rewrite Hbytes, subarray_middle.
Qed.

Lemma nullTerminatedString_terminated_witness :
  nullTerminatedString (Samples.bundle 0 2 5) (Some 5) = "a.zig".
Proof.
  apply (nullTerminatedString_terminated (Samples.bundle 0 2 5)
           (Byte.x00 :: list_byte_of_string "msg" ++ [Byte.x00])
           (list_byte_of_string "a.zig")
           (list_byte_of_string "x = 1;" ++ [Byte.x00])).
  - reflexivity.
  - intros Hin. by repeat (apply elem_of_cons in Hin as [?|Hin]; [done|]);
      apply elem_of_nil in Hin.
Defined.

(** X3.  A string without terminator loses its last byte: [indexOf] answers
    -1, which [subarray] reads as "one before the end".  And an index at
    or beyond the end of the storage gives the empty text. *)
Theorem nullTerminatedString_unterminated this :
  (forall (pre body : list byte) (last : byte),
     stringBytes this = pre ++ body ++ [last] ->
     Byte.x00 ∉ body ++ [last] ->
     nullTerminatedString this (Some (Z.of_nat (length pre)))
       = Buffer_toString body) /\
  (forall index,
     Z.of_nat (length (stringBytes this)) <= index ->
     nullTerminatedString this (Some index) = "").
Proof.
  split.
  - intros pre body last Hbytes Hnot. unfold nullTerminatedString.
    cbn [ToNumber ToIntegerOrInfinity].
    assert (indexOf (stringBytes this) Byte.x00 (Z.of_nat (length pre)) = -1)
      as ->.
    { unfold indexOf. rewrite (proj2 (Z.ltb_ge _ _)) by lia.
      rewrite Hbytes, Nat2Z.id, drop_app_length.
      by rewrite find_byte_none. }
    rewrite Hbytes. unfold subarray, relative_index.
    rewrite (proj2 (Z.ltb_ge (Z.of_nat (length pre)) 0)) by lia.
    change (-1 <? 0) with true. cbv iota.
    rewrite !length_app. cbn [length].
    rewrite Z.min_l by lia. rewrite Z.max_l by lia.
    rewrite Nat2Z.id, drop_app_length.
    replace (Z.to_nat _) with (length body) by lia.
    by rewrite take_app_length.
  - intros index Hbeyond. unfold nullTerminatedString.
    cbn [ToNumber ToIntegerOrInfinity].
    assert (indexOf (stringBytes this) Byte.x00 index = -1) as ->.
    { unfold indexOf. rewrite (proj2 (Z.ltb_ge _ _)) by lia.
      by rewrite drop_ge by lia. }
    unfold subarray, relative_index.
    rewrite (proj2 (Z.ltb_ge index 0)) by lia.
    change (-1 <? 0) with true. cbv iota.
    replace (Z.to_nat (_ - _)) with 0%nat by lia. done.
Qed.

Lemma nullTerminatedString_unterminated_witness :
  nullTerminatedString (ErrorBundle.mk (list_byte_of_string "abc") []) (Some 1)
    = "b" /\
  nullTerminatedString (Samples.bundle 0 2 5) (Some 18) = "".
Proof.
  split.
  - apply (proj1 (nullTerminatedString_unterminated
                    (ErrorBundle.mk (list_byte_of_string "abc") []))
             (list_byte_of_string "a") (list_byte_of_string "b") Byte.x63).
    + reflexivity.
    + intros Hin. by repeat (apply elem_of_cons in Hin as [?|Hin]; [done|]);
        apply elem_of_nil in Hin.
  - apply (proj2 (nullTerminatedString_unterminated (Samples.bundle 0 2 5))).
    by vm_compute.
Defined.

End more_accessors.

(** ** The renderer *)

Section renderer.
Import ErrorBundle.

Lemma String_repeat_nonneg s n :
  0 <= n -> String_repeat s (Int n) = Normal (repeat_string s (Z.to_nat n)).
Proof.
  intros Hn. unfold String_repeat. cbn [ToIntegerOrInfinity].
  by rewrite (proj2 (Z.ltb_ge _ _)).
Qed.

Lemma foldl_not_Normal fuel this options indent acc notes :
  (forall str, acc <> Normal str) ->
  foldl (render_notes fuel this options indent) acc notes = acc.
Proof.
  revert acc. induction notes as [|note notes IH]; intros acc Hacc; first done.
  cbn [foldl]. destruct acc as [str| |]; [by destruct (Hacc str)|..];
    cbn; by apply IH.
Qed.

(** X4.  A message without source location, with its count in the buffer and
    without notes, is rendered as the indented label and the text, with
    the count appended unless it is 1. *)
Theorem render_plain_message fuel this str options errMsgIndex kind indent count :
  0 <= indent ->
  ErrorMessage.srcLoc (getErrorMessage this errMsgIndex) = undefined ->
  ErrorMessage.count (getErrorMessage this errMsgIndex) = Some count ->
  getNotes this errMsgIndex = [] ->
  let msg :=
    nullTerminatedString this (ErrorMessage.msg (getErrorMessage this errMsgIndex)) in
  renderErrorMessage (S fuel) this str options errMsgIndex kind indent =
    Normal (str ++ [repeat_string " " (Z.to_nat indent) +:+ kind +:+ ": "]
            ++ (if count =? 1 then [msg; LF]
                else [msg +:+ " (" +:+ pretty count +:+ " times)" +:+ LF])).
Proof.
  intros Hindent Hloc Hcount Hnotes msg. cbn [renderErrorMessage].
  rewrite Hloc, Hcount, Hnotes. cbn [truthy undefined strict_eq foldl].
  rewrite String_repeat_nonneg by done.
  cbn [mbind completion_bind mret completion_ret value_toString].
  subst msg. destruct (count =? 1); cbn [mbind completion_bind mret completion_ret];
    by rewrite <-(assoc_L (++)).
Qed.

Lemma render_plain_message_witness :
  renderErrorMessage 1 (Samples.bundle 0 2 5) [] defaultRenderOptions 25 "note" 4
    = Normal ["    note: "; "msg (3 times)" +:+ LF].
Proof.
  apply (render_plain_message 0 (Samples.bundle 0 2 5) [] defaultRenderOptions
           25 "note" 4 3); by vm_compute.
Defined.

(** X5.  A message record cut by the end of the buffer before its [count]
    word makes the renderer throw a TypeError: the count is [undefined]
    and [toString] is called on it. *)
Theorem render_truncated_record_throws fuel this str options errMsgIndex kind indent :
  0 <= indent -> 0 <= errMsgIndex ->
  extra_at this (errMsgIndex + 1) = undefined ->
  renderErrorMessage (S fuel) this str options errMsgIndex kind indent
    = Throw TypeError.
Proof.
  intros Hindent Hindex Hcount.
  assert (ErrorMessage.count (getErrorMessage this errMsgIndex) = None) as Hc.
  { exact Hcount. }
  assert (ErrorMessage.srcLoc (getErrorMessage this errMsgIndex) = None) as Hl.
  { cbn [getErrorMessage ErrorMessage.srcLoc].
    by rewrite (extra_at_beyond this (errMsgIndex + 1) (errMsgIndex + 2))
      by (done || lia). }
  cbn [renderErrorMessage]. rewrite Hc, Hl. cbn [truthy strict_eq].
  rewrite String_repeat_nonneg by done. done.
Qed.

Lemma render_truncated_record_throws_witness :
  renderErrorMessage 1 (ErrorBundle.mk Samples.strings [1; 3; 0; 4; 1]%N) []
    defaultRenderOptions 4 "error" 0 = Throw TypeError.
Proof.
  apply (render_truncated_record_throws 0
           (ErrorBundle.mk Samples.strings [1; 3; 0; 4; 1]%N)); by vm_compute.
Defined.

(** X6.  A message with a source location is rendered without its notes: the
    renderer does not recurse, whatever the notes are. *)
Theorem render_located_ignores_notes fuel this str options errMsgIndex kind indent :
  truthy (ErrorMessage.srcLoc (getErrorMessage this errMsgIndex)) = true ->
  renderErrorMessage (S fuel) this str options errMsgIndex kind indent
    = renderErrorMessage 1 this str options errMsgIndex kind indent /\
  renderErrorMessage (S fuel) this str options errMsgIndex kind indent
    <> OutOfFuel.
Proof.
  intros Hloc. split.
  - cbn [renderErrorMessage]. by rewrite Hloc.
  - cbn [renderErrorMessage]. rewrite Hloc.
    unfold String_repeat, value_toString.
    repeat (case_match; cbn [mbind completion_bind mret completion_ret]);
      done.
Qed.

Lemma render_located_ignores_notes_witness :
  renderErrorMessage 9 (Samples.bundle 0 2 5) [] defaultRenderOptions 4 "error" 0
    = renderErrorMessage 1 (Samples.bundle 0 2 5) [] defaultRenderOptions 4
        "error" 0.
Proof.
  apply (render_located_ignores_notes 8 (Samples.bundle 0 2 5)). reflexivity.
Defined.

Lemma renderErrorMessage_notes fuel this str options errMsgIndex kind indent :
  truthy (ErrorMessage.srcLoc (getErrorMessage this errMsgIndex)) = false ->
  renderErrorMessage (S fuel) this str options errMsgIndex kind indent =
    (spaces ← String_repeat " " (Int indent);
     str ←
       (let errMsg := getErrorMessage this errMsgIndex in
        let msg := nullTerminatedString this (ErrorMessage.msg errMsg) in
        let str := str ++ [spaces +:+ kind +:+ ": "] in
        if strict_eq (ErrorMessage.count errMsg) 1 then
          mret (str ++ [msg; LF])
        else
          count ← value_toString (ErrorMessage.count errMsg);
          mret (str ++ [msg +:+ " (" +:+ count +:+ " times)" +:+ LF]));
     foldl (render_notes fuel this options indent) (mret str)
       (getNotes this errMsgIndex)).
Proof. intros Hloc. cbn [renderErrorMessage]. by rewrite Hloc. Qed.

Lemma foldl_notes_mono n m this options indent :
  (forall str note r,
     renderErrorMessage n this str options note "note" (indent + 4) = r ->
     r <> OutOfFuel ->
     renderErrorMessage m this str options note "note" (indent + 4) = r) ->
  forall notes acc r,
    foldl (render_notes n this options indent) acc notes = r ->
    r <> OutOfFuel ->
    foldl (render_notes m this options indent) acc notes = r.
Proof.
  intros Hstep notes. induction notes as [|note notes IH]; intros acc r Hr Hfuel;
    first done.
  cbn [foldl] in *. destruct acc as [str| |]; cbn in *.
  - destruct (renderErrorMessage n this str options note "note" (indent + 4))
      as [str'| |] eqn:Hn.
    + rewrite (Hstep _ _ _ Hn) by done. by apply IH.
    + rewrite (Hstep _ _ _ Hn) by done. by apply IH.
    + rewrite foldl_not_Normal in Hr by done. congruence.
  - by apply IH.
  - by apply IH.
Qed.

(** More fuel does not change a result: once the renderer returns or
    throws within a recursion depth, it does the same at any greater
    depth. *)
Lemma render_fuel_enough n m this str options errMsgIndex kind indent r :
  (n <= m)%nat ->
  renderErrorMessage n this str options errMsgIndex kind indent = r ->
  r <> OutOfFuel ->
  renderErrorMessage m this str options errMsgIndex kind indent = r.
Proof.
  revert m str errMsgIndex kind indent r.
  induction n as [|n IH]; intros m str errMsgIndex kind indent r Hle Hr Hfuel.
  { cbn in Hr. congruence. }
  destruct m as [|m]; first lia.
  destruct (truthy (ErrorMessage.srcLoc (getErrorMessage this errMsgIndex)))
    eqn:Hloc.
  - rewrite (proj1 (render_located_ignores_notes m _ _ _ _ _ _ Hloc)).
    by rewrite (proj1 (render_located_ignores_notes n _ _ _ _ _ _ Hloc)) in Hr.
  - rewrite renderErrorMessage_notes in Hr |- * by done.
    destruct (String_repeat " " (Int indent)) as [spaces| |]; [|done..].
    cbn [mbind completion_bind mret completion_ret] in Hr |- *. cbv zeta in Hr |- *.
    destruct (strict_eq (ErrorMessage.count (getErrorMessage this errMsgIndex)) 1);
      [|destruct (value_toString _) as [count| |]; [|done..]];
      cbn [mbind completion_bind mret completion_ret] in Hr |- *.
    all: eapply foldl_notes_mono; [|done..].
    all: intros str0 note r0 Hr0 Hfuel0; eapply IH; [lia|done..].
Qed.

Lemma render_fuel_enough_witness :
  renderErrorMessage 7 (Samples.bundle 0 2 5) [] defaultRenderOptions 25 "note" 4
    = Normal ["    note: "; "msg (3 times)" +:+ LF].
Proof.
  apply (render_fuel_enough 1 7); [lia|by vm_compute|done].
Defined.

Lemma foldl_notes_stuck fuel this options indent (note : Z) notes :
  note ∈ notes ->
  (forall str out,
     renderErrorMessage fuel this str options note "note" (indent + 4)
       <> Normal out) ->
  forall acc out,
    foldl (render_notes fuel this options indent) acc notes <> Normal out.
Proof.
  intros Hin Hstuck. induction notes as [|note' notes IH]; intros acc out.
  { by apply elem_of_nil in Hin. }
  cbn [foldl]. apply elem_of_cons in Hin as [<-|Hin]; last by apply IH.
  rewrite foldl_not_Normal; destruct acc as [str| |]; cbn; try done.
  all: intros str'; apply Hstuck || done.
Qed.

(** X7.  Notes that lead back to a message: if every message of a set has no
    source location and has a note in the set, rendering a message of the
    set never returns, at any depth. *)
Theorem render_note_cycle_never_returns this (cycle : Z -> Prop) :
  (forall i, cycle i ->
     truthy (ErrorMessage.srcLoc (getErrorMessage this i)) = false /\
     exists j, j ∈ getNotes this i /\ cycle j) ->
  forall fuel str options i kind indent out,
    cycle i ->
    renderErrorMessage fuel this str options i kind indent <> Normal out.
Proof.
  intros Hcycle fuel.
  induction fuel as [|fuel IH]; intros str options i kind indent out Hi;
    first done.
  destruct (Hcycle i Hi) as (Hloc & j & Hj & Hcj).
  rewrite renderErrorMessage_notes by done.
  destruct (String_repeat " " (Int indent)) as [spaces| |]; [|done..].
  cbn [mbind completion_bind mret completion_ret]. cbv zeta.
  destruct (strict_eq (ErrorMessage.count (getErrorMessage this i)) 1);
    [|destruct (value_toString _) as [count| |]; [|done..]];
    cbn [mbind completion_bind mret completion_ret].
  all: apply (foldl_notes_stuck fuel this options indent j); first done.
  all: intros str0 out0; by apply IH.
Qed.

Lemma render_note_cycle_never_returns_witness :
  match
    renderErrorMessage 10
      (ErrorBundle.mk Samples.strings [1; 3; 0; 4; 1; 1; 0; 1; 4]%N)
      [] defaultRenderOptions 4 "error" 0
  with
  | Normal _ => False
  | _ => True
  end.
Proof.
  destruct (renderErrorMessage 10 _ _ _ _ _ _) as [out| |] eqn:Hrun; [|done..].
  revert Hrun.
  apply (render_note_cycle_never_returns
           (ErrorBundle.mk Samples.strings [1; 3; 0; 4; 1; 1; 0; 1; 4]%N)
           (fun i => i = 4)); last done.
  intros i ->. split; first done.
  exists 4. split; last done. apply elem_of_cons. by left.
Defined.



Lemma append_nil_r (s : string) : s +:+ "" = s.
Proof.
  induction s as [|c s IH]; first done.
  change (String c (s +:+ "") = String c s). by rewrite IH.
Qed.

(** X9.  A bundle without root messages (an empty or headerless extra buffer
    among them) renders as the compile log block alone, and as the empty
    text when there is no log text or it is not asked for. *)
Theorem toString_no_messages fuel this options :
  getMessages this = [] ->
  toString fuel this options =
    Normal (if includeLogText options
               && negb (String.length (getCompileLogOutput this) =? 0)%nat
            then LF +:+ "Compile Log Output:" +:+ LF
                 +:+ getCompileLogOutput this
            else "").
Proof.
  intros Hnone. unfold toString. rewrite Hnone.
  cbn [foldl mbind completion_bind mret completion_ret].
  destruct (includeLogText options); cbn [andb]; last done.
  destruct (_ =? _)%nat; cbn [negb]; first done.
  cbn [join foldr app]. f_equal.
  rewrite append_nil_r.
  generalize (getCompileLogOutput this). intros log. reflexivity.
Qed.

Lemma toString_no_messages_witness :
  toString 0 (ErrorBundle.new None None) defaultRenderOptions = Normal "" /\
  toString 0 (ErrorBundle.mk (Byte.x00 :: list_byte_of_string "log" ++ [Byte.x00]) [0; 0; 1]%N)
    defaultRenderOptions
    = Normal (LF +:+ "Compile Log Output:" +:+ LF +:+ "log").
Proof.
  split.
  - apply (toString_no_messages 0 (ErrorBundle.new None None)). reflexivity.
  - apply (toString_no_messages 0
             (ErrorBundle.mk (Byte.x00 :: list_byte_of_string "log" ++ [Byte.x00]) [0; 0; 1]%N)).
    reflexivity.
Defined.

End renderer.

(** ** More about the stdout handler *)

Section handler_more.
Import ZigCompileServer.

(** *** Reading inside and outside a buffer *)

Lemma readUInt32LE_cases buf offset :
  readUInt32LE buf offset = Throw RangeError \/
  exists v, readUInt32LE buf offset = Normal v.
Proof.
  unfold readUInt32LE.
  destruct (subarray _ _ _) as [|b0 [|b1 [|b2 [|b3 [|]]]]]; eauto.
  destruct (_ && _); eauto.
Qed.

Lemma readUInt32LE_inside buf offset :
  0 <= offset -> offset + 4 <= Z.of_nat (length buf) ->
  exists v, readUInt32LE buf offset = Normal v.
Proof.
  intros Hoff Hin. unfold readUInt32LE.
  rewrite subarray_take_drop by lia.
  replace (offset + 4 - offset) with 4 by lia.
  assert (length (take (Z.to_nat 4) (drop (Z.to_nat offset) buf)) = 4%nat) as Hlen.
  { rewrite length_take, length_drop. lia. }
  destruct (take _ _) as [|b0 [|b1 [|b2 [|b3 [|]]]]]; try done.
  rewrite (proj2 (Z.leb_le 0 offset)) by done.
  rewrite (proj2 (Z.leb_le _ _)) by done. eauto.
Qed.

Lemma readUInt32LE_outside buf offset :
  Z.of_nat (length buf) < offset + 4 ->
  readUInt32LE buf offset = Throw RangeError.
Proof.
  intros Hout. unfold readUInt32LE.
  destruct (subarray _ _ _) as [|b0 [|b1 [|b2 [|b3 [|]]]]]; try done.
  rewrite (proj2 (Z.leb_gt (offset + 4) _)) by done.
  by rewrite andb_false_r.
Qed.

(** *** What a call of the handler can do to the session *)

Lemma onStdoutData_inv s stdout s' :
  onStdoutData s stdout = Normal s' ->
  let buf := dataBuffer s ++ stdout in
  (Z.of_nat (length buf) < 8 /\ s' = set_dataBuffer buf s) \/
  (8 <= Z.of_nat (length buf) /\
   exists tag bytesLen,
     readUInt32LE buf 0 = Normal tag /\
     readUInt32LE buf 4 = Normal bytesLen /\
     let s0 := set_dataBuffer (subarray_from buf (8 + bytesLen)) s in
     (tag <> 1 /\ tag <> 3 /\ 0 <= tag <= 2 /\
        (s' = s0 \/ exists message, tag = 2 /\ s' = onProgress message s0)) \/
     (tag = 1 /\ exists error, s' = reject error s0) \/
     (tag = 1 /\ exists bundle, s' = resolve (Failure bundle) s0) \/
     (tag = 3 /\ exists path, s' = resolve (Success path) s0) \/
     ((tag < 0 \/ 3 < tag) /\ exists error, s' = kill (reject error s0))).
Proof.
  intros Hrun buf. unfold onStdoutData in Hrun. fold buf in Hrun.
  destruct (Z.leb_spec 8 (Z.of_nat (length buf))) as [Hlong|Hshort];
    last first.
  { left. split; first done. by injection Hrun as <-. }
  right. split; first done.
  destruct (readUInt32LE buf 0) as [tag| |]; [|done..].
  destruct (readUInt32LE buf 4) as [bytesLen| |]; [|done..].
  exists tag, bytesLen. split_and!; [done..|].
  cbn [mbind completion_bind mret completion_ret] in Hrun.
  destruct tag as [|[[p|p|]|[p|p|]|]|p].
  - left. injection Hrun as <-. split_and!; [done..|lia|by left].
  - do 4 right. injection Hrun as <-. split; [lia|eauto].
  - do 4 right. injection Hrun as <-. split; [lia|eauto].
  - do 3 right. left. injection Hrun as <-. eauto.
  - do 4 right. injection Hrun as <-. split; [lia|eauto].
  - do 4 right. injection Hrun as <-. split; [lia|eauto].
  - left. injection Hrun as <-. split_and!; [done..|lia|right; eauto].
  - destruct (_ <? 8).
    { right. left. injection Hrun as <-. eauto. }
    destruct (readUInt32LE _ 0) as [extraLen| |]; [|done..].
    destruct (readUInt32LE _ 4) as [stringBytesLen| |]; [|done..].
    cbn [mbind completion_bind mret completion_ret] in Hrun.
    destruct (negb _).
    { right. left. injection Hrun as <-. eauto. }
    destruct (mapM _ _) as [extra| |]; [|done..].
    do 2 right. left. injection Hrun as <-. eauto.
  - do 4 right. injection Hrun as <-. split; [lia|eauto].
Qed.

Ltac at_frame_head Hbuf tag payload rest Hlen :=
  let Hlong := fresh in
  let Htag := fresh in
  let Hbytes := fresh in
  let Hdata := fresh in
  let Hrest := fresh in
  unfold onStdoutData; rewrite Hbuf;
  destruct (frame_header tag payload rest ltac:(lia) Hlen)
    as (Hlong & Htag & Hbytes & Hdata & Hrest);
  rewrite Hlong, Htag, Hbytes;
  cbn [mbind completion_bind mret completion_ret];
  rewrite ?Hdata, ?Hrest;
  clear Hlong Htag Hbytes Hdata Hrest.

Lemma promise_settled_resolve result s :
  promise s <> Pending -> resolve result s = s.
Proof. unfold resolve. by destruct (promise s). Qed.

Lemma promise_settled_reject error s :
  promise s <> Pending -> reject error s = s.
Proof. unfold reject. by destruct (promise s). Qed.

(** A complete frame with tag 0, 2 or 3 at the head of the buffer. *)
Lemma complete_frame_step s stdout tag payload rest :
  dataBuffer s ++ stdout = frame tag payload ++ rest ->
  Z.of_nat (length payload) < 2 ^ 32 ->
  tag = 0 \/ tag = 2 \/ tag = 3 ->
  onStdoutData s stdout =
    Normal
      (let s := set_dataBuffer rest s in
       if tag =? 0 then s
       else if tag =? 2 then onProgress (Buffer_toString payload) s
       else resolve (Success (Buffer_toString (drop 1 payload))) s).
Proof.
  intros Hbuf Hlen [-> | [-> | ->]].
  - by at_frame_head Hbuf 0 payload rest Hlen.
  - by at_frame_head Hbuf 2 payload rest Hlen.
  - at_frame_head Hbuf 3 payload rest Hlen.
    by rewrite subarray_from_drop by lia.
Qed.

(** X10.  Frames that do not end the session: a complete version frame (tag 0)
    at the head of the buffer is dropped without any effect, a complete
    progress frame (tag 2) makes one call of [onProgress] with its
    decoded payload; neither touches the promise, and both leave exactly
    the bytes after the frame in the buffer. *)
Theorem nonterminal_frames s stdout payload rest :
  Z.of_nat (length payload) < 2 ^ 32 ->
  (dataBuffer s ++ stdout = frame 0 payload ++ rest ->
   onStdoutData s stdout =
     Normal {| dataBuffer := rest; promise := promise s;
               progress := progress s; killed := killed s |}) /\
  (dataBuffer s ++ stdout = frame 2 payload ++ rest ->
   onStdoutData s stdout =
     Normal {| dataBuffer := rest; promise := promise s;
               progress := progress s ++ [Buffer_toString payload];
               killed := killed s |}).
Proof.
  intros Hlen. split; intros Hbuf.
  - by at_frame_head Hbuf 0 payload rest Hlen.
  - by at_frame_head Hbuf 2 payload rest Hlen.
Qed.

Lemma nonterminal_frames_witness :
  onStdoutData initial Samples.version_frame = Normal initial /\
  onStdoutData initial (frame 2 (list_byte_of_string "linking") ++ [Byte.x03]) =
    Normal {| dataBuffer := [Byte.x03]; promise := Pending;
              progress := ["linking"]; killed := false |}.
Proof.
  split.
  - apply (proj1 (nonterminal_frames initial Samples.version_frame
                    (list_byte_of_string "0.11.0") [] ltac:(by vm_compute))).
    reflexivity.
  - apply (proj2 (nonterminal_frames initial
                    (frame 2 (list_byte_of_string "linking") ++ [Byte.x03])
                    (list_byte_of_string "linking") [Byte.x03]
                    ltac:(by vm_compute))).
    reflexivity.
Defined.

(** X11.  A complete frame with any other tag than 0, 1, 2, 3 rejects a
    pending session with the tag in the message, and calls
    [childProcess.kill()] whether the session was pending or not. *)
Theorem unexpected_tag_rejects_and_kills s stdout tag payload rest :
  3 < tag < 2 ^ 32 ->
  Z.of_nat (length payload) < 2 ^ 32 ->
  dataBuffer s ++ stdout = frame tag payload ++ rest ->
  onStdoutData s stdout =
    Normal {| dataBuffer := rest;
              promise :=
                match promise s with
                | Pending =>
                    Rejected ("received unexpected message tag " +:+ pretty tag)
                | settled => settled
                end;
              progress := progress s;
              killed := true |}.
Proof.
  intros Htag Hlen Hbuf.
  at_frame_head Hbuf tag payload rest Hlen.
  destruct tag as [|[[p|p|]|[p|p|]|]|p]; try lia;
    unfold kill, reject, set_dataBuffer;
    cbn [promise dataBuffer progress killed];
    by destruct (promise s).
Qed.

Lemma unexpected_tag_rejects_and_kills_witness :
  onStdoutData initial (frame 7 []) =
    Normal {| dataBuffer := [];
              promise := Rejected "received unexpected message tag 7";
              progress := []; killed := true |}.
Proof.
  apply (unexpected_tag_rejects_and_kills initial (frame 7 []) 7 [] []);
    [lia|by vm_compute|reflexivity].
Defined.

(** X12.  The promise settles once: when it is resolved or rejected already,
    no chunk, no sequence of chunks and no exit of the child changes
    it. *)
Theorem settled_promise_is_kept s :
  promise s <> Pending ->
  (forall stdout s',
     onStdoutData s stdout = Normal s' -> promise s' = promise s) /\
  (forall chunks s',
     feed s chunks = Normal s' -> promise s' = promise s) /\
  (forall zigExePath args error,
     promise (onExit zigExePath args error s) = promise s) /\
  (forall stderr, promise (onStderrData s stderr) = promise s).
Proof.
  assert (forall s stdout s',
            promise s <> Pending -> onStdoutData s stdout = Normal s' ->
            promise s' = promise s) as Hstep.
  { clear s. intros s stdout s' Hsettled Hrun.
    apply onStdoutData_inv in Hrun. cbv zeta in Hrun.
    destruct Hrun as [[_ ->]|(_ & tag & bytesLen & _ & _ & Hcases)]; first done.
    set (s0 := set_dataBuffer _ s) in *.
    assert (promise s0 <> Pending) as Hs0 by done.
    destruct Hcases as
      [(_ & _ & _ & [->|(m & _ & ->)])
      |[(_ & e & ->)|[(_ & b & ->)|[(_ & p & ->)|(_ & e & ->)]]]];
      rewrite ?promise_settled_resolve, ?promise_settled_reject by done;
      done. }
  intros Hsettled. split_and!.
  - intros stdout s'. by apply Hstep.
  - intros chunks. unfold feed. revert s Hsettled.
    induction chunks as [|chunk chunks IH]; intros s Hsettled s' Hrun.
    + by injection Hrun as <-.
    + cbn [foldl mbind completion_bind mret completion_ret] in Hrun.
      destruct (onStdoutData s chunk) as [s1| |] eqn:Hs1.
      * rewrite <-(Hstep _ _ _ Hsettled Hs1). apply IH; last done.
        by rewrite (Hstep _ _ _ Hsettled Hs1).
      * assert (forall l, foldl (fun acc chunk => s ← acc; onStdoutData s chunk)
                            (Throw e) l = Throw e) as Hthrow.
        { intros l. induction l; [done|by cbn]. }
        unfold mbind in Hthrow. by rewrite Hthrow in Hrun.
      * assert (forall l, foldl (fun acc chunk => s ← acc; onStdoutData s chunk)
                            OutOfFuel l = OutOfFuel) as Hfuel.
        { intros l. induction l; [done|by cbn]. }
        unfold mbind in Hfuel. by rewrite Hfuel in Hrun.
  - intros zigExePath args error. unfold onExit.
    by rewrite promise_settled_reject.
  - done.
Qed.

Lemma settled_promise_is_kept_witness :
  let s :=
    {| dataBuffer := []; promise := Resolved (Success "bin");
       progress := []; killed := false |} in
  (forall s', onStdoutData s (frame 7 []) = Normal s' ->
     promise s' = Resolved (Success "bin")) /\
  promise (onExit "zig" ["run"] None s) = Resolved (Success "bin").
Proof.
  intros s.
  destruct (settled_promise_is_kept s) as (Hstep & _ & Hexit & _); first done.
  split.
  - intros s' Hrun. exact (Hstep _ _ Hrun).
  - apply Hexit.
Defined.

(** X13.  What the handler keeps of the bytes: below 8 buffered bytes it keeps
    them all; from 8 bytes on it reads a header and drops it together
    with the number of bytes the header announces, whether or not that
    many have arrived. *)
Theorem handler_consumes_header_and_length s stdout s' :
  onStdoutData s stdout = Normal s' ->
  let buf := dataBuffer s ++ stdout in
  if Z.of_nat (length buf) <? 8 then dataBuffer s' = buf
  else
    exists tag bytesLen,
      readUInt32LE buf 0 = Normal tag /\
      readUInt32LE buf 4 = Normal bytesLen /\
      dataBuffer s' = drop (Z.to_nat (8 + bytesLen)) buf.
Proof.
  intros Hrun buf. apply onStdoutData_inv in Hrun. fold buf in Hrun.
  cbv zeta in Hrun.
  destruct Hrun as [[Hshort ->]|(Hlong & tag & bytesLen & Htag & Hlen & Hcases)].
  { by rewrite (proj2 (Z.ltb_lt _ _)). }
  rewrite (proj2 (Z.ltb_ge _ _)) by done.
  exists tag, bytesLen. split_and!; [done..|].
  pose proof (readUInt32LE_range _ _ _ Hlen).
  rewrite <-subarray_from_drop by lia.
  set (s0 := set_dataBuffer _ s) in *.
  assert (forall e, dataBuffer (reject e s0) = dataBuffer s0) as Hrej.
  { intros e. unfold reject. by destruct (promise s0). }
  assert (forall r, dataBuffer (resolve r s0) = dataBuffer s0) as Hres.
  { intros r. unfold resolve. by destruct (promise s0). }
  destruct Hcases as
    [(_ & _ & _ & [->|(m & _ & ->)])
    |[(_ & e & ->)|[(_ & b & ->)|[(_ & p & ->)|(_ & e & ->)]]]];
    cbn [kill onProgress dataBuffer]; rewrite ?Hrej, ?Hres; done.
Qed.

Lemma handler_consumes_header_and_length_witness :
  let s' :=
    {| dataBuffer := []; promise := Resolved (Success "b");
       progress := []; killed := false |} in
  onStdoutData initial (take 10 Samples.bin_frame) = Normal s' /\
  exists tag bytesLen,
    readUInt32LE (take 10 Samples.bin_frame) 0 = Normal tag /\
    readUInt32LE (take 10 Samples.bin_frame) 4 = Normal bytesLen /\
    dataBuffer s' = drop (Z.to_nat (8 + bytesLen)) (take 10 Samples.bin_frame).
Proof.
  intros s'. split; first reflexivity.
  exact (handler_consumes_header_and_length initial (take 10 Samples.bin_frame)
           s' eq_refl).
Defined.

(** X14.  The handler throws only while handling an error bundle: with any
    other tag at the head of the buffer, and with fewer than 8 bytes, it
    returns. *)
Theorem handler_returns_unless_error_bundle s stdout :
  Z.of_nat (length (dataBuffer s ++ stdout)) < 8
  \/ readUInt32LE (dataBuffer s ++ stdout) 0 <> Normal 1 ->
  exists s', onStdoutData s stdout = Normal s'.
Proof.
  intros Htag. unfold onStdoutData.
  set (buf := dataBuffer s ++ stdout) in *.
  destruct (Z.leb_spec 8 (Z.of_nat (length buf))) as [Hlong|Hshort];
    last by eauto.
  destruct Htag as [?|Htag]; first lia.
  destruct (readUInt32LE_inside buf 0) as [tag Ht]; [lia..|].
  destruct (readUInt32LE_inside buf 4) as [bytesLen Hb]; [lia..|].
  rewrite Ht, Hb in *. cbn [mbind completion_bind mret completion_ret].
  destruct tag as [|[[p|p|]|[p|p|]|]|p]; eauto.
  done.
Qed.

Lemma handler_returns_unless_error_bundle_witness :
  exists s', onStdoutData initial (take 10 Samples.bin_frame) = Normal s'.
Proof.
  apply (handler_returns_unless_error_bundle initial (take 10 Samples.bin_frame)).
  right. by vm_compute.
Defined.

(** *** One frame per chunk *)

Lemma feed_cons s chunk chunks :
  feed s (chunk :: chunks) = s' ← onStdoutData s chunk; feed s' chunks.
Proof.
  unfold feed. cbn [foldl mbind completion_bind mret completion_ret].
  destruct (onStdoutData s chunk) as [s'|e|]; first done.
  - induction chunks; [done|by cbn].
  - induction chunks; [done|by cbn].
Qed.

Lemma feed_nonterminal frames : forall s,
  dataBuffer s = [] ->
  Forall (fun f => (f.1 = 0 \/ f.1 = 2) /\ Z.of_nat (length f.2) < 2 ^ 32) frames ->
  feed s ((fun f => frame f.1 f.2) <$> frames) =
    Normal {| dataBuffer := []; promise := promise s;
              progress := progress s ++ progress_texts frames;
              killed := killed s |}.
Proof.
  induction frames as [|[tag payload] frames IH]; intros s Hempty Hframes.
  { cbn. rewrite app_nil_r. destruct s. cbn in Hempty. by subst. }
  apply Forall_cons in Hframes as [[Htag Hlen] Hframes]. cbn in Htag, Hlen.
  cbn [fmap list_fmap fst snd]. rewrite feed_cons.
  rewrite (complete_frame_step s _ tag payload []);
    [|by rewrite Hempty, app_nil_r|done|tauto].
  cbn [mbind completion_bind progress_texts].
  destruct Htag as [->| ->]; cbn [Z.eqb Pos.eqb].
  - change (list_fmap _ _ ?f frames) with (f <$> frames).
    by rewrite IH.
  - change (list_fmap _ _ ?f frames) with (f <$> frames).
    rewrite IH by done.
    cbn [onProgress set_dataBuffer promise progress killed].
    by rewrite <-(assoc_L (++)).
Qed.

(** X15.  Delivered one complete frame per chunk, a run of version and progress
    frames followed by an artifact-path frame resolves the session with
    the path; [onProgress] has been called once per progress frame, in
    order, and nothing is left in the buffer. *)
Theorem frame_per_chunk_session frames payload :
  Forall (fun f => (f.1 = 0 \/ f.1 = 2) /\ Z.of_nat (length f.2) < 2 ^ 32) frames ->
  Z.of_nat (length payload) < 2 ^ 32 ->
  feed initial (((fun f => frame f.1 f.2) <$> frames) ++ [frame 3 payload]) =
    Normal {| dataBuffer := [];
              promise := Resolved (Success (Buffer_toString (drop 1 payload)));
              progress := progress_texts frames;
              killed := false |}.
Proof.
  intros Hframes Hlen.
  assert (forall s a b, feed s (a ++ b) = s' ← feed s a; feed s' b) as Happ.
  { intros s a. revert s. induction a as [|c a IH]; intros s b; first done.
    cbn [app]. rewrite !feed_cons.
    destruct (onStdoutData s c); cbn [mbind completion_bind]; [apply IH|done..]. }
  rewrite Happ. rewrite (feed_nonterminal frames initial eq_refl Hframes).
  cbn [mbind completion_bind]. rewrite feed_cons.
  rewrite (complete_frame_step _ _ 3 payload []);
    [|by rewrite app_nil_r|done|tauto].
  done.
Qed.

Lemma frame_per_chunk_session_witness :
  feed initial
    [Samples.version_frame; frame 2 (list_byte_of_string "linking");
     Samples.bin_frame] =
    Normal {| dataBuffer := []; promise := Resolved (Success "bin");
              progress := ["linking"]; killed := false |}.
Proof.
  apply (frame_per_chunk_session
           [(0, list_byte_of_string "0.11.0");
            (2, list_byte_of_string "linking")] Samples.bin_payload).
  - repeat constructor; by vm_compute.
  - by vm_compute.
Defined.

Lemma error_bundle_frame_decodes_witness :
  onStdoutData initial
    (frame 1 (error_bundle_payload [7; 9]%N (list_byte_of_string "abc"))) =
    Normal {| dataBuffer := [];
              promise :=
                Resolved (Failure (ErrorBundle.mk (list_byte_of_string "abc")
                                     [7; 9]%N));
              progress := []; killed := false |}.
Proof.
  apply (error_bundle_frame_decodes initial _ [7; 9]%N
           (list_byte_of_string "abc") []).
  - reflexivity.
  - reflexivity.
  - by vm_compute.
  - repeat constructor.
Defined.

Lemma mapM_throws {A B} (f : A -> completion B) (l : list A) e :
  (forall x, f x = Throw e \/ exists v, f x = Normal v) ->
  (exists x, x ∈ l /\ f x = Throw e) ->
  mapM f l = Throw e.
Proof.
  intros Hcases. induction l as [|a l IH]; intros (x & Hin & Hx).
  { by apply elem_of_nil in Hin. }
  cbn [mapM]. destruct (Hcases a) as [Ha|[v Ha]]; rewrite Ha; first done.
  cbn [mbind completion_bind]. rewrite IH; first done.
  apply elem_of_cons in Hin as [->|Hin]; last by eauto.
  congruence.
Qed.

(** X17.  An error-bundle frame whose header and counts agree but whose words
    have not all arrived is not waited for: the handler starts decoding
    and the listener throws a RangeError from [readUInt32LE]. *)
Theorem truncated_error_bundle_throws s stdout bytesLen extraLen
    stringBytesLen (body : list byte) :
  dataBuffer s ++ stdout =
    u32le 1 ++ u32le bytesLen ++ (u32le extraLen ++ u32le stringBytesLen ++ body) ->
  0 <= extraLen < 2 ^ 32 -> 0 <= stringBytesLen < 2 ^ 32 ->
  bytesLen = 8 + 4 * extraLen + stringBytesLen -> bytesLen < 2 ^ 32 ->
  Z.of_nat (length body) < 4 * extraLen ->
  onStdoutData s stdout = Throw RangeError.
Proof.
  intros Hbuf He Hn Hsize Hmax Hcut.
  set (data := u32le extraLen ++ u32le stringBytesLen ++ body) in *.
  assert (Z.of_nat (length data) = 8 + Z.of_nat (length body)) as Hdata.
  { unfold data. rewrite !length_app, !u32le_length. lia. }
  unfold onStdoutData. rewrite Hbuf.
  rewrite (proj2 (Z.leb_le 8 _)) by (rewrite !length_app, !u32le_length; lia).
  assert (readUInt32LE (u32le 1 ++ u32le bytesLen ++ data) 0 = Normal 1) as ->.
  { apply (readUInt32LE_u32le [] _ 1). lia. }
  assert (readUInt32LE (u32le 1 ++ u32le bytesLen ++ data) 4 = Normal bytesLen)
    as ->.
  { apply (readUInt32LE_u32le (u32le 1) _ bytesLen). lia. }
  cbn [mbind completion_bind mret completion_ret].
  assert (subarray (u32le 1 ++ u32le bytesLen ++ data) 8 (8 + bytesLen) = data)
    as ->.
  { rewrite subarray_take_drop by lia.
    rewrite (assoc_L (++) (u32le 1)).
    change (Z.to_nat 8) with (length (u32le 1 ++ u32le bytesLen)).
    rewrite drop_app_length. apply take_ge. lia. }
  rewrite (proj2 (Z.ltb_ge _ 8)) by lia.
  assert (readUInt32LE data 0 = Normal extraLen) as ->.
  { apply (readUInt32LE_u32le [] _ extraLen). lia. }
  assert (readUInt32LE data 4 = Normal stringBytesLen) as ->.
  { apply (readUInt32LE_u32le (u32le extraLen) _ stringBytesLen). lia. }
  cbn [mbind completion_bind mret completion_ret].
  rewrite (proj2 (Z.eqb_eq _ _)) by done. cbn [negb].
  assert (subarray_from data 8 = body) as ->.
  { unfold data. rewrite (assoc_L (++) (u32le _) (u32le _)).
    apply (subarray_from_suffix (u32le _ ++ u32le _)). }
  assert (subarray body 0 (4 * extraLen) = body) as ->.
  { rewrite subarray_take_drop by lia. cbn [Z.to_nat drop].
    apply take_ge. lia. }
  rewrite (mapM_throws _ _ RangeError); first done.
  - intros index. destruct (readUInt32LE_cases body (4 * index)) as [->|[v ->]];
      [by left|right; by eexists].
  - exists (extraLen - 1). split.
    + unfold indices. apply list_elem_of_fmap.
      exists (Z.to_nat (extraLen - 1)). split; first lia.
      apply elem_of_seq. lia.
    + rewrite readUInt32LE_outside by lia. done.
Qed.

Lemma truncated_error_bundle_throws_witness :
  onStdoutData initial
    (take 20 (frame 1 (error_bundle_payload [7; 9]%N (list_byte_of_string "abc"))))
    = Throw RangeError.
Proof.
  apply (truncated_error_bundle_throws initial _ 19 2 3
           (list_byte_of_string (String "007" (String "000" (String "000" (String "000" ""))))));
    [reflexivity|lia|lia|lia|lia|by vm_compute].
Defined.

End handler_more.

(** ** The debug configuration provider *)

Section arguments.
Import DebugConfigurationProvider.

Lemma find_index_first {A} (p : A -> bool) (before : list A) x after :
  Forall (fun y => p y = false) before -> p x = true ->
  find_index p (before ++ x :: after) = Some (length before).
Proof.
  intros Hbefore Hx. induction Hbefore as [|y before Hy _ IH];
    cbn [app find_index length].
  - by rewrite Hx.
  - by rewrite Hy, IH.
Qed.

Lemma find_index_none {A} (p : A -> bool) (a : list A) :
  Forall (fun y => p y = false) a -> find_index p a = None.
Proof.
  intros Ha. induction Ha as [|y a Hy _ IH]; cbn [find_index]; first done.
  by rewrite Hy, IH.
Qed.

Lemma find_index_split {A} (p : A -> bool) (a : list A) i :
  find_index p a = Some i ->
  exists before x after,
    a = before ++ x :: after /\ length before = i /\ p x = true /\
    Forall (fun y => p y = false) before.
Proof.
  revert i. induction a as [|y a IH]; intros i; cbn [find_index]; first done.
  destruct (p y) eqn:Hy.
  - intros [= <-]. by exists [], y, a.
  - destruct (find_index p a) as [j|]; last done.
    intros [= <-]. destruct (IH j eq_refl) as (before & x & after & -> & <- & Hx & Hb).
    exists (y :: before), x, after. split_and!; [done..|]. by constructor.
Qed.

Lemma find_index_none_inv {A} (p : A -> bool) (a : list A) :
  find_index p a = None -> Forall (fun y => p y = false) a.
Proof.
  induction a as [|y a IH]; cbn [find_index]; first by constructor.
  destruct (p y) eqn:Hy; first done.
  destruct (find_index p a); first done. intros _. constructor; auto.
Qed.

Lemma not_elem_eqb (s : string) (a : list string) :
  s ∉ a <-> Forall (fun y => String.eqb y s = false) a.
Proof.
  rewrite Forall_forall. split.
  - intros Hnot y Hy. apply String.eqb_neq. intros ->. by apply Hnot.
  - intros Hall Hin. specialize (Hall s Hin). by rewrite String.eqb_refl in Hall.
Qed.

Lemma slice_prefix {A} (before after : list A) :
  slice (before ++ after) 0 (Z.of_nat (length before)) = before.
Proof.
  unfold slice. rewrite subarray_take_drop by lia.
  cbn [Z.to_nat drop]. rewrite Z.sub_0_r, Nat2Z.id. apply take_app_length.
Qed.

Lemma slice_from_suffix {A} (before : list A) x after :
  slice_from (before ++ x :: after) (Z.of_nat (length before) + 1) = after.
Proof.
  unfold slice_from. rewrite subarray_from_drop by lia.
  replace (Z.to_nat _) with (length (before ++ [x])).
  - by rewrite (cons_middle x before after), (assoc_L (++)), drop_app_length.
  - rewrite length_app. cbn. lia.
Qed.

Lemma splitBuildAndRunArgs_first_sep :
  (forall args, "--" ∉ args -> splitBuildAndRunArgs args = (args, [])) /\
  (forall buildArgs runArgs,
     "--" ∉ buildArgs ->
     splitBuildAndRunArgs (buildArgs ++ "--" :: runArgs) = (buildArgs, runArgs)) /\
  (forall args buildArgs runArgs,
     splitBuildAndRunArgs args = (buildArgs, runArgs) ->
     ("--" ∉ buildArgs) /\
     ((args = buildArgs /\ runArgs = [])
      \/ args = buildArgs ++ "--" :: runArgs)).
Proof.
  assert (forall buildArgs runArgs,
            "--" ∉ buildArgs ->
            splitBuildAndRunArgs (buildArgs ++ "--" :: runArgs)
              = (buildArgs, runArgs)) as Hcut.
  { intros b r Hb%not_elem_eqb. unfold splitBuildAndRunArgs, findIndex.
    rewrite (find_index_first _ b "--" r) by done.
    rewrite (proj2 (Z.eqb_neq _ (-1))) by lia.
    by rewrite slice_prefix, slice_from_suffix. }
  assert (forall args, "--" ∉ args -> splitBuildAndRunArgs args = (args, []))
    as Hnone.
  { intros args Hargs%not_elem_eqb. unfold splitBuildAndRunArgs, findIndex.
    by rewrite find_index_none. }
  split_and!; [done..|].
  intros args b r Hsplit.
  destruct (find_index (fun arg => String.eqb arg "--") args) as [i|] eqn:Hi.
  - apply find_index_split in Hi
      as (before & x & after & -> & _ & Hx%String.eqb_eq & Hb%not_elem_eqb).
    subst x. rewrite Hcut in Hsplit by done. injection Hsplit as <- <-.
    split; first done. by right.
  - apply find_index_none_inv, not_elem_eqb in Hi.
    rewrite Hnone in Hsplit by done. injection Hsplit as <- <-.
    split; first done. by left.
Qed.


(** X18.  [splitBuildAndRunArgs] cuts at the first ["--"]: without one, all
    arguments are build arguments; with one, the build arguments are
    those before the first, the run arguments all those after it (later
    ["--"] included).  Conversely the two parts always give the
    arguments back. *)
Theorem splitBuildAndRunArgs_first_separator :
  (forall args, "--" ∉ args -> splitBuildAndRunArgs args = (args, [])) /\
  (forall buildArgs runArgs,
     "--" ∉ buildArgs ->
     splitBuildAndRunArgs (buildArgs ++ "--" :: runArgs) = (buildArgs, runArgs)) /\
  (forall args buildArgs runArgs,
     splitBuildAndRunArgs args = (buildArgs, runArgs) ->
     ("--" ∉ buildArgs) /\
     ((args = buildArgs /\ runArgs = [])
      \/ args = buildArgs ++ "--" :: runArgs)).
Proof. exact splitBuildAndRunArgs_first_sep. Qed.

Lemma splitBuildAndRunArgs_first_separator_witness :
  splitBuildAndRunArgs ["run"; "a.zig"] = (["run"; "a.zig"], []) /\
  splitBuildAndRunArgs (["run"; "a.zig"] ++ "--" :: ["x"; "--"; "y"])
    = (["run"; "a.zig"], ["x"; "--"; "y"]).
Proof.
  destruct splitBuildAndRunArgs_first_separator as (Hnone & Hcut & _).
  split.
  - apply Hnone. by apply not_elem_eqb; repeat constructor.
  - apply Hcut. by apply not_elem_eqb; repeat constructor.
Defined.

End arguments.

Section provider.
Import DebugConfigurationProvider.
Context {Uri : Type} (platform : Platform Uri).

Lemma is_string_true v s : is_string v s = true <-> v = Some s.
Proof.
  destruct v as [x|]; cbn; last done.
  rewrite String.eqb_eq. split; [by intros ->|by intros [= ->]].
Qed.

Lemma find_build_file (a : list string) :
  truthy_string (List.find (fun value => String.eqb value "--build-file") a) = true
  <-> "--build-file" ∈ a.
Proof.
  split.
  - destruct (List.find _ a) as [v|] eqn:Hfind; last done.
    apply List.find_some in Hfind as [Hin Hv%String.eqb_eq]. subst v.
    intros _. by apply list_elem_of_In.
  - intros Hin. induction a as [|x a IH]; first by apply elem_of_nil in Hin.
    cbn [List.find]. destruct (String.eqb_spec x "--build-file") as [->|Hne];
      first done.
    apply IH. apply elem_of_cons in Hin as [?|?]; [congruence|done].
Qed.

Lemma checkArgs_launchable (folder : option (WorkspaceFolder Uri)) c
    (calls0 : list (Call Uri)) :
  forall a, args c = Some a -> launchable a ->
  checkArgs folder c calls0 = mkOutcome (Configuration c) c calls0.
Proof.
  intros a Ha (mode & rest & -> & Hmode). unfold checkArgs. rewrite Ha.
  cbn [head].
  destruct Hmode as [[-> Hfile]|[->| ->]]; cbn; try done.
  assert ("--build-file" ∈ "build" :: rest) as Hin by (by right).
  apply find_build_file in Hin. cbn in Hin. by rewrite Hin.
Qed.

Lemma checkArgs_configuration (folder : option (WorkspaceFolder Uri)) c
    (calls0 : list (Call Uri)) c' :
  result (checkArgs folder c calls0) = Configuration c' ->
  exists a, args c' = Some a /\ launchable a /\
    after (checkArgs folder c calls0) = c' /\
    request c' = request c.
Proof.
  unfold checkArgs. destruct (args c) as [a|] eqn:Ha; last done.
  destruct a as [|mode rest]; first done. cbn [head].
  destruct (negb (truthy_string (Some mode))); first done.
  destruct (is_string (Some mode) "build") eqn:Hbuild.
  { apply is_string_true in Hbuild as [= ->].
    destruct (truthy_string (List.find _ _)) eqn:Hfind; cbn [negb].
    - intros [= <-]. exists ("build" :: rest). split_and!; [done| |done..].
      apply find_build_file in Hfind.
      exists "build", rest. split; first done. left. split; first done.
      apply elem_of_cons in Hfind as [?|?]; [done|done].
    - destruct folder; last done. intros [= <-].
      eexists. split_and!; [done| |done..].
      exists "build", (rest ++ ["--build-file"; "${workspaceFolder}/build.zig"]).
      split; first done. left. split; first done.
      apply elem_of_app. right. by left. }
  destruct (is_string (Some mode) "run") eqn:Hrun.
  { apply is_string_true in Hrun as [= ->]. intros [= <-].
    exists ("run" :: rest). split_and!; [done| |done..].
    exists "run", rest. tauto. }
  destruct (is_string (Some mode) "test") eqn:Htest; last done.
  apply is_string_true in Htest as [= ->]. intros [= <-].
  exists ("test" :: rest). split_and!; [done| |done..].
  exists "test", rest. tauto.
Qed.

Lemma resolveDebugConfiguration_inv answers folder c c' :
  result (resolveDebugConfiguration platform answers folder c) = Configuration c' ->
  lldbInstalled answers = true /\
  exists a, args c' = Some a /\ launchable a.
Proof.
  unfold resolveDebugConfiguration.
  destruct (lldbInstalled answers); cbn [negb]; last first.
  { by destruct (warningResponse answers) as [[|]|]. }
  intros Hresult. split; first done.
  destruct (request c); cbn [negb] in Hresult.
  { apply checkArgs_configuration in Hresult as (a & ? & ? & _). eauto. }
  destruct (folderHasBuildSystem platform folder); first done.
  destruct (activeDocumentLanguageId answers) as [languageId|]; last done.
  destruct (negb (String.eqb languageId "zig")); first done.
  destruct (selection answers) as [label|]; last done.
  destruct (is_string (Some label) "run") eqn:Hrun.
  { apply is_string_true in Hrun as [= ->]. injection Hresult as <-.
    eexists. split; first done. exists "run", ["${file}"]. tauto. }
  destruct (is_string (Some label) "test") eqn:Htest.
  { apply is_string_true in Htest as [= ->]. injection Hresult as <-.
    eexists. split; first done. exists "test", ["${file}"]. tauto. }
  cbn [orb] in Hresult.
  destruct (is_string (Some label) "open launch.json"); first done.
  apply checkArgs_configuration in Hresult as (a & ? & ? & _). eauto.
Qed.

(** X19.  Whatever the answers, a configuration that
    [resolveDebugConfiguration] returns starts with the mode [build],
    [run] or [test], and a [build] one names its build file; none is
    returned while the CodeLLDB extension is missing. *)
Theorem resolveDebugConfiguration_returns_launchable answers folder c c' :
  result (resolveDebugConfiguration platform answers folder c) = Configuration c' ->
  lldbInstalled answers = true /\
  exists a, args c' = Some a /\ launchable a.
Proof. apply resolveDebugConfiguration_inv. Qed.

(** X20.  Resolving is idempotent: a configuration that
    [resolveDebugConfiguration] returned, and that has a [request], is
    returned as it is when resolved again, without any message. *)
Theorem resolveDebugConfiguration_idempotent answers folder c c'
    answers' folder' :
  result (resolveDebugConfiguration platform answers folder c) = Configuration c' ->
  request c' <> None ->
  lldbInstalled answers' = true ->
  resolveDebugConfiguration platform answers' folder' c'
    = mkOutcome (Configuration c') c' [].
Proof.
  intros Hresult Hrequest Hlldb.
  apply resolveDebugConfiguration_inv in Hresult
    as (_ & a & Ha & Hlaunch).
  unfold resolveDebugConfiguration. rewrite Hlldb. cbn [negb].
  destruct (request c'); last done. cbn [negb].
  by apply (checkArgs_launchable _ _ _ a).
Qed.


Lemma slice_from_tail {A} (x : A) (a : list A) : slice_from (x :: a) 1 = a.
Proof. unfold slice_from. by rewrite subarray_from_drop by lia. Qed.


(** X23.  A [run] or [test] launch without workspace folder needs a source
    file for the base of the diagnostics: when there is none (every build
    argument starts with a dash), the provider throws a TypeError before
    any compilation is started. *)
Theorem run_or_test_without_folder served c mode args_ :
  args c = Some (mode :: args_) ->
  mode = "run" \/ mode = "test" ->
  sourceFilesOf (splitBuildAndRunArgs args_).1 = [] ->
  resolveDebugConfigurationWithSubstitutedVariables platform served None c
    = Throw TypeError.
Proof.
  intros Hargs Hmode Hnone.
  unfold resolveDebugConfigurationWithSubstitutedVariables.
  rewrite Hargs. cbn [default from_option id].
  destruct (splitBuildAndRunArgs args_) as [b r] eqn:Hsplit. cbn [fst] in Hnone.
  assert (splitBuildAndRunArgs (mode :: args_) = (mode :: b, r)) as ->.
  { destruct splitBuildAndRunArgs_first_sep as (Hnone' & Hcut & Hinv).
    assert (mode <> "--") as Hne by (by destruct Hmode as [->| ->]).
    destruct (Hinv _ _ _ Hsplit) as [Hb [[-> ->]| ->]].
    - apply Hnone'. by apply not_elem_of_cons.
    - apply (Hcut (mode :: b)). by apply not_elem_of_cons. }
  cbn [head]. rewrite slice_from_tail.
  fold (sourceFilesOf b). rewrite Hnone.
  by destruct Hmode as [->| ->].
Qed.

(** X24.  A configuration is returned only in two cases: for [run] and [test]
    when the compile server resolved with a path, which is then the
    program; for [build] with the fixed program path.  It always has the
    type [lldb] and the run arguments as [args]. *)
Theorem configuration_only_after_success served folder c out c' :
  resolveDebugConfigurationWithSubstitutedVariables platform served folder c
    = Normal out ->
  result out = Configuration c' ->
  let a := default [] (args c) in
  after out = c' /\ type c' = "lldb" /\
  args c' = Some (splitBuildAndRunArgs a).2 /\
  name c' = name c /\ request c' = request c /\
  ((head a = Some "build" /\ program c' = Some hardCodedProgram) \/
   ((head a = Some "run" \/ head a = Some "test") /\
    exists path,
      served = ZigCompileServer.Resolved (ZigCompileServer.Success path) /\
      program c' = Some path)).
Proof.
  intros Hrun Hresult a.
  unfold resolveDebugConfigurationWithSubstitutedVariables in Hrun.
  fold a in Hrun. destruct (splitBuildAndRunArgs a) as [b r]. cbn [snd].
  destruct (is_string (head a) "build") eqn:Hbuild.
  { apply is_string_true in Hbuild.
    destruct (negb (truthy_string _)).
    { injection Hrun as <-. done. }
    destruct (negb (existsSync _ _)).
    { injection Hrun as <-. done. }
    injection Hrun as <-. injection Hresult as <-.
    split_and!; [done..|]. by left. }
  destruct (is_string (head a) "run" || is_string (head a) "test") eqn:Hmode;
    last first.
  { injection Hrun as <-. done. }
  apply orb_true_iff in Hmode. rewrite !is_string_true in Hmode.
  match type of Hrun with
  | mbind _ ?m = _ => destruct m as [baseUri| |]; [|done..]
  end.
  cbn [mbind completion_bind] in Hrun.
  destruct (getZigPath platform).
  2:{ injection Hrun as <-. done. }
  destruct served as [|[path|errorBundle]|error]; try done.
  - injection Hrun as <-. injection Hresult as <-.
    split_and!; [done..|]. right. split; first done. by exists path.
  - injection Hrun as <-. done.
  - injection Hrun as <-. done.
Qed.

(** X25.  A configuration without [args], or with an empty list, is answered
    with [null] and the message "unexpected build mode undefined"; the
    configuration object has by then been given the type [lldb] and an
    empty argument list. *)
Theorem missing_args_unexpected_mode served folder c :
  args c = None \/ args c = Some [] ->
  resolveDebugConfigurationWithSubstitutedVariables platform served folder c =
    Normal (mkOutcome Null
              {| type := "lldb"; name := name c; request := request c;
                 args := Some []; program := program c |}
              [showErrorMessage "unexpected build mode undefined"]).
Proof.
  intros [Hargs|Hargs];
    unfold resolveDebugConfigurationWithSubstitutedVariables;
    by rewrite Hargs.
Qed.

Lemma buildFilePathOf_found before path after :
  "--build-file" ∉ before ->
  buildFilePathOf (before ++ "--build-file" :: path :: after) = Some path.
Proof.
  intros Hbefore%not_elem_eqb. unfold buildFilePathOf, findIndex.
  rewrite (find_index_first _ before "--build-file") by done.
  rewrite get_lookup by lia.
  replace (Z.to_nat _) with (length before + 1)%nat by lia.
  rewrite lookup_app_r by lia.
  by replace (length before + 1 - length before)%nat with 1%nat by lia.
Qed.

Lemma buildFilePathOf_last before :
  "--build-file" ∉ before ->
  buildFilePathOf (before ++ ["--build-file"]) = None.
Proof.
  intros Hbefore%not_elem_eqb. unfold buildFilePathOf, findIndex.
  rewrite (find_index_first _ before "--build-file") by done.
  rewrite get_lookup by lia.
  apply lookup_ge_None. rewrite length_app. cbn. lia.
Qed.

Lemma buildFilePathOf_absent buildArgs :
  "--build-file" ∉ buildArgs -> buildFilePathOf buildArgs = head buildArgs.
Proof.
  intros Habsent%not_elem_eqb. unfold buildFilePathOf, findIndex.
  rewrite find_index_none by done. by destruct buildArgs.
Qed.

(** X26.  A [build] launch.  The build file is the build argument after the
    first ["--build-file"]: when it exists on disk the configuration is
    returned with the fixed program path, otherwise [null] with a
    message; when ["--build-file"] is the last build argument, [null]
    without message.  When the build arguments have no ["--build-file"]
    (it may stand after a ["--"]), the argument looked up is the one at
    position 0, the mode ["build"] itself. *)
Theorem build_file_lookup served folder c rest buildArgs runArgs :
  args c = Some ("build" :: rest) ->
  splitBuildAndRunArgs ("build" :: rest) = (buildArgs, runArgs) ->
  let c1 :=
    {| type := "lldb"; name := name c; request := request c;
       args := Some runArgs; program := program c |} in
  let lookup path :=
    resolveDebugConfigurationWithSubstitutedVariables platform served folder c =
      Normal (if existsSync platform path then
                mkOutcome (Configuration (set_program hardCodedProgram c1))
                  (set_program hardCodedProgram c1) []
              else
                mkOutcome Null c1
                  [showErrorMessage ("could not find '" +:+ path +:+ "'")]) in
  (forall before path after,
     buildArgs = before ++ "--build-file" :: path :: after ->
     "--build-file" ∉ before -> path <> "" -> lookup path) /\
  (forall before,
     buildArgs = before ++ ["--build-file"] -> "--build-file" ∉ before ->
     resolveDebugConfigurationWithSubstitutedVariables platform served folder c
       = Normal (mkOutcome Null c1 [])) /\
  ("--build-file" ∉ buildArgs -> lookup "build").
Proof.
  intros Hargs Hsplit c1 lookup.
  assert (forall path,
            buildFilePathOf buildArgs = Some path -> path <> "" -> lookup path)
    as Hfound.
  { intros path Hpath Hne. unfold lookup.
    unfold resolveDebugConfigurationWithSubstitutedVariables.
    rewrite Hargs. cbn [default from_option id]. rewrite Hsplit.
    cbn [head is_string]. rewrite String.eqb_refl, Hpath.
    assert (truthy_string (Some path) = true) as -> by (by destruct path).
    cbn [negb template default from_option id].
    by destruct (existsSync platform path). }
  split_and!.
  - intros before path after -> Hbefore Hne.
    apply Hfound; last done. by apply buildFilePathOf_found.
  - intros before -> Hbefore.
    unfold resolveDebugConfigurationWithSubstitutedVariables.
    rewrite Hargs. cbn [default from_option id]. rewrite Hsplit.
    cbn [head is_string]. rewrite String.eqb_refl.
    by rewrite buildFilePathOf_last.
  - intros Habsent. apply Hfound; last done.
    rewrite buildFilePathOf_absent by done.
    destruct splitBuildAndRunArgs_first_sep as (_ & _ & Hinv).
    by destruct (Hinv _ _ _ Hsplit) as [_ [[<- _]| Heq]];
      [|destruct buildArgs; [discriminate Heq|injection Heq as <- _]].
Qed.

End provider.

(** *** The provider on concrete configurations *)

Section provider_witnesses.
Import DebugConfigurationProvider.

Lemma resolveDebugConfiguration_returns_launchable_witness :
  lldbInstalled ProviderSamples.answers = true /\
  exists a,
    args (set_args ["build"; "--build-file"; "${workspaceFolder}/build.zig"]
            (launch "Launch zig build" ["build"])) = Some a /\
    launchable a.
Proof.
  apply (resolveDebugConfiguration_returns_launchable ProviderSamples.platform
           ProviderSamples.answers (Some ProviderSamples.folder)
           (launch "Launch zig build" ["build"])).
  reflexivity.
Defined.

Lemma resolveDebugConfiguration_idempotent_witness :
  let c := launch "Launch zig build" ["build"] in
  let c' :=
    set_args ["build"; "--build-file"; "${workspaceFolder}/build.zig"] c in
  resolveDebugConfiguration ProviderSamples.platform ProviderSamples.answers
    None c'
    = mkOutcome (Configuration c') c' [].
Proof.
  intros c c'.
  apply (resolveDebugConfiguration_idempotent ProviderSamples.platform
           ProviderSamples.answers (Some ProviderSamples.folder) c c'
           ProviderSamples.answers None); done.
Defined.



Lemma run_or_test_without_folder_witness :
  resolveDebugConfigurationWithSubstitutedVariables ProviderSamples.platform
    ZigCompileServer.Pending None (launch "Launch" ["test"; "-O"; "--"; "a.zig"])
  = Throw TypeError.
Proof.
  apply (run_or_test_without_folder ProviderSamples.platform
           ZigCompileServer.Pending (launch "Launch" ["test"; "-O"; "--"; "a.zig"])
           "test" ["-O"; "--"; "a.zig"]); [reflexivity|by right|reflexivity].
Defined.

Lemma configuration_only_after_success_witness :
  let c' :=
    {| type := "lldb"; name := "Launch"; request := Some "launch";
       args := Some []; program := Some "/w/a" |} in
  type c' = "lldb" /\ program c' = Some "/w/a".
Proof.
  intros c'.
  destruct (configuration_only_after_success ProviderSamples.platform
              (ZigCompileServer.Resolved (ZigCompileServer.Success "/w/a"))
              (Some ProviderSamples.folder) (launch "Launch" ["run"; "/w/a.zig"])
              (mkOutcome (Configuration c') c'
                 [zigServe "compiling 'zig run /w/a.zig'..." "zig"
                    ["build-exe"; "/w/a.zig"] (Some "/w")])
              c' eq_refl eq_refl)
    as (_ & Htype & _ & _ & _ & [[Hbuild _]|[_ (path & Hserved & Hprogram)]]).
  - discriminate Hbuild.
  - injection Hserved as <-. by split.
Defined.

Lemma missing_args_unexpected_mode_witness :
  resolveDebugConfigurationWithSubstitutedVariables ProviderSamples.platform
    ZigCompileServer.Pending None
    {| type := "zig"; name := "Launch"; request := Some "launch";
       args := None; program := None |}
  = Normal
      (mkOutcome Null
         {| type := "lldb"; name := "Launch"; request := Some "launch";
            args := Some []; program := None |}
         [showErrorMessage "unexpected build mode undefined"]).
Proof.
  apply (missing_args_unexpected_mode ProviderSamples.platform
           ZigCompileServer.Pending None
           {| type := "zig"; name := "Launch"; request := Some "launch";
              args := None; program := None |}).
  by left.
Defined.

Lemma build_file_lookup_witness :
  resolveDebugConfigurationWithSubstitutedVariables ProviderSamples.platform
    ZigCompileServer.Pending None
    (launch "b" ["build"; "--build-file"; "/w/build.zig"; "--"; "x"]) =
    Normal
      (mkOutcome
         (Configuration
            {| type := "lldb"; name := "b"; request := Some "launch";
               args := Some ["x"]; program := Some hardCodedProgram |})
         {| type := "lldb"; name := "b"; request := Some "launch";
            args := Some ["x"]; program := Some hardCodedProgram |} []) /\
  resolveDebugConfigurationWithSubstitutedVariables ProviderSamples.platform
    ZigCompileServer.Pending None
    (launch "b" ["build"; "--"; "--build-file"; "/w/build.zig"]) =
    Normal
      (mkOutcome
         (Configuration
            {| type := "lldb"; name := "b"; request := Some "launch";
               args := Some ["--build-file"; "/w/build.zig"];
               program := Some hardCodedProgram |})
         {| type := "lldb"; name := "b"; request := Some "launch";
            args := Some ["--build-file"; "/w/build.zig"];
            program := Some hardCodedProgram |} []).
Proof.
  split.
  - apply (proj1 (build_file_lookup ProviderSamples.platform
                    ZigCompileServer.Pending None
                    (launch "b" ["build"; "--build-file"; "/w/build.zig"; "--"; "x"])
                    _ ["build"; "--build-file"; "/w/build.zig"] ["x"]
                    eq_refl eq_refl)
             ["build"] "/w/build.zig" []); [done| |done].
    apply not_elem_eqb. by repeat constructor.
  - apply (proj2 (proj2 (build_file_lookup ProviderSamples.platform
                           ZigCompileServer.Pending None
                           (launch "b" ["build"; "--"; "--build-file"; "/w/build.zig"])
                           _ ["build"] ["--build-file"; "/w/build.zig"]
                           eq_refl eq_refl))).
    apply not_elem_eqb. by repeat constructor.
Defined.

End provider_witnesses.

(** ** The build diagnostics *)

Section completion_lists.
Context {A B : Type} (f : A -> completion B).

Lemma mapM_Normal_app (l1 l2 : list A) xs ys :
  mapM f l1 = Normal xs -> mapM f l2 = Normal ys ->
  mapM f (l1 ++ l2) = Normal (xs ++ ys).
Proof.
  revert xs. induction l1 as [|a l1 IH]; intros xs H1 H2.
  { cbn in H1. injection H1 as <-. done. }
  cbn [mapM app] in H1 |- *.
  destruct (f a) as [b| |]; [|done..]. cbn [mbind completion_bind] in H1 |- *.
  destruct (mapM f l1) as [xs'| |]; [|done..].
  cbn [mbind completion_bind mret completion_ret] in H1. injection H1 as <-.
  by rewrite (IH xs' eq_refl H2).
Qed.

Lemma mapM_Normal_inv (l : list A) xs :
  mapM f l = Normal xs ->
  length xs = length l /\
  forall k a b, l !! k = Some a -> xs !! k = Some b -> f a = Normal b.
Proof.
  revert xs. induction l as [|a l IH]; intros xs Hrun.
  { cbn in Hrun. injection Hrun as <-. split; first done. by intros []. }
  cbn [mapM] in Hrun.
  destruct (f a) as [b| |] eqn:Ha; [|done..].
  cbn [mbind completion_bind] in Hrun.
  destruct (mapM f l) as [xs'| |]; [|done..].
  cbn [mbind completion_bind mret completion_ret] in Hrun. injection Hrun as <-.
  destruct (IH xs' eq_refl) as [Hlen Hget]. split.
  - cbn. by rewrite Hlen.
  - intros [|k] a' b'; cbn.
    + by intros [= <-] [= <-].
    + apply Hget.
Qed.

End completion_lists.

Section dictionaries.
Import JsObject.
Context {V : Type}.
Implicit Types d : dictionary V.

Lemma own_assign d key v k :
  own (assign d key v) k = if String.eqb key k then Some v else own d k.
Proof.
  unfold own. induction d as [|[k' w] d IH]; cbn [assign List.find fst].
  - by destruct (String.eqb key k).
  - destruct (String.eqb_spec k' key) as [->|Hne]; cbn [List.find fst].
    + by destruct (String.eqb key k).
    + destruct (String.eqb_spec k' k) as [->|Hne'].
      * by rewrite (proj2 (String.eqb_neq key k)) by done.
      * apply IH.
Qed.

Lemma keys_assign d key v :
  (assign d key v).*1 =
    if decide (key ∈ d.*1) then d.*1 else d.*1 ++ [key].
Proof.
  induction d as [|[k w] d IH]; cbn [assign fmap list_fmap fst].
  - by rewrite decide_False by apply not_elem_of_nil.
  - destruct (String.eqb_spec k key) as [->|Hne]; cbn [fmap list_fmap fst].
    + by rewrite decide_True by left.
    + change (list_fmap _ _ fst ?l) with (l.*1). rewrite IH.
      destruct (decide (key ∈ d.*1)) as [Hin|Hout].
      * by rewrite decide_True by (by right).
      * rewrite decide_False; first done.
        intros [?|?]%elem_of_cons; congruence.
Qed.

Lemma NoDup_keys_assign d key v :
  NoDup (d.*1) -> NoDup ((assign d key v).*1).
Proof.
  intros Hd. rewrite keys_assign. destruct (decide _); first done.
  apply NoDup_app. split_and!; [done| |apply NoDup_singleton].
  intros k Hk [->|[]%elem_of_nil]%elem_of_cons. done.
Qed.

Lemma own_elem_of d k v :
  NoDup (d.*1) -> (k, v) ∈ d -> own d k = Some v.
Proof.
  unfold own. induction d as [|[k' w] d IH]; intros Hd Hin.
  { by apply elem_of_nil in Hin. }
  apply NoDup_cons in Hd as [Hk' Hd]. cbn [List.find fst].
  apply elem_of_cons in Hin as [[= <- <-]|Hin].
  - by rewrite String.eqb_refl.
  - destruct (String.eqb_spec k' k) as [->|Hne]; last by apply IH.
    destruct Hk'. apply list_elem_of_fmap. by exists (k, v).
Qed.

Lemma own_Some_elem_of d k v : own d k = Some v -> (k, v) ∈ d.
Proof.
  unfold own. destruct (List.find _ d) as [[k' w]|] eqn:Hfind; last done.
  apply List.find_some in Hfind as [Hin Hk%String.eqb_eq]. cbn in Hk. subst k'.
  intros [= <-]. by apply list_elem_of_In.
Qed.

Lemma elem_of_insert_index (n : N) (e : string * V) sorted x :
  x ∈ insert_index n e sorted <-> x = (n, e) \/ x ∈ sorted.
Proof.
  induction sorted as [|[m e'] sorted IH]; cbn [insert_index].
  - rewrite elem_of_cons. reflexivity.
  - destruct (n <? m)%N.
    + rewrite elem_of_cons. reflexivity.
    + rewrite !elem_of_cons, IH. tauto.
Qed.

Lemma elem_of_indexed d : forall sorted (x : N * (string * V)),
  x ∈ foldl (fun sorted e =>
               match array_index e.1 with
               | Some n => insert_index n e sorted
               | None => sorted
               end) sorted d
  <-> x ∈ sorted \/ (x.2 ∈ d /\ array_index (x.2).1 = Some x.1).
Proof.
  induction d as [|e' d IH]; intros sorted x; cbn [foldl].
  - split; [by left|]. intros [?|[[]%elem_of_nil _]]. done.
  - rewrite IH, elem_of_cons. destruct (array_index e'.1) as [n|] eqn:Hn.
    + rewrite elem_of_insert_index. split.
      * intros [[->|?]|[? ?]]; [right; cbn; eauto|by left|by right; eauto].
      * intros [?|[[Heq|?] Hidx]]; [by left; right| |by right].
        left; left. destruct x as [m y]. cbn in *. subst y. congruence.
    + split; first by intros [?|[? ?]]; eauto.
      intros [?|[[Heq|?] Hidx]]; [by left| |by right].
      subst. congruence.
Qed.

Lemma elem_of_entries d e : e ∈ entries d <-> e ∈ d.
Proof.
  unfold entries. rewrite elem_of_app, list_elem_of_fmap.
  rewrite (list_elem_of_In (List.filter _ _) e), List.filter_In, <-list_elem_of_In.
  split.
  - intros [([n y] & -> & Hin)|[Hin _]]; last done.
    apply elem_of_indexed in Hin as [[]%elem_of_nil|[Hin _]]. done.
  - intros Hin. destruct (array_index e.1) as [n|] eqn:Hn.
    + left. exists (n, e). split; first done. apply elem_of_indexed. right. done.
    + right. by split.
Qed.

End dictionaries.

Section diagnostics.
Import JsObject BuildDiagnostics.
Context {Uri Range : Type} (editor : Editor Uri Range).
Context (baseUri : Uri) (this : ErrorBundle.t).

Local Abbreviation diagnosticFor :=
  (fun m => snd <$> diagnosticOf editor baseUri this m).

Lemma diagnosticOf_path msgIndex srcPath diagnostic :
  diagnosticOf editor baseUri this msgIndex = Normal (srcPath, diagnostic) ->
  srcPath = pathOf this msgIndex.
Proof.
  unfold diagnosticOf.
  destruct (sourceLocationToRange _ _) as [range| |]; [|done..].
  cbn [mbind completion_bind].
  destruct (mapM _ _) as [related| |]; [|done..].
  cbn [mbind completion_bind mret completion_ret]. by intros [= <- _].
Qed.

Lemma unlocated_snoc l m :
  unlocated this (l ++ [m]) =
    unlocated this l ++ (if located this m then [] else [m]).
Proof.
  unfold unlocated. rewrite List.filter_app. cbn [List.filter].
  by destruct (located this m).
Qed.

Lemma locatedIn_snoc k l m :
  locatedIn this k (l ++ [m]) =
    locatedIn this k l
    ++ (if located this m && String.eqb (pathOf this m) k then [m] else []).
Proof.
  unfold locatedIn. rewrite List.filter_app. cbn [List.filter].
  by destruct (_ && _).
Qed.

Lemma collect_step l shown d m shown' d' :
  shown = textOf this <$> unlocated this l ->
  NoDup (d.*1) ->
  (forall k,
     match own d k with
     | None => locatedIn this k l = []
     | Some ds => ds <> [] /\ mapM diagnosticFor (locatedIn this k l) = Normal ds
     end) ->
  collect editor baseUri this (Normal (shown, d)) m = Normal (shown', d') ->
  shown' = textOf this <$> unlocated this (l ++ [m]) /\
  NoDup (d'.*1) /\
  (forall k,
     match own d' k with
     | None => locatedIn this k (l ++ [m]) = []
     | Some ds =>
         ds <> [] /\ mapM diagnosticFor (locatedIn this k (l ++ [m])) = Normal ds
     end).
Proof.
  intros Hshown Hkeys Hinv. unfold collect.
  cbn [mbind completion_bind fst snd].
  fold (located this m). fold (textOf this m).
  destruct (located this m) eqn:Hloc; cbn [negb].
  - destruct (diagnosticOf editor baseUri this m) as [[p dg]| |] eqn:Hd;
      [|done..].
    cbn [mbind completion_bind fst snd].
    destruct (inherited editor p); first done.
    cbn [mret completion_ret]. intros [= <- <-].
    pose proof (diagnosticOf_path _ _ _ Hd) as ->.
    split_and!.
    + by rewrite unlocated_snoc, Hloc, app_nil_r.
    + by apply NoDup_keys_assign.
    + intros k. rewrite own_assign, locatedIn_snoc, Hloc. cbn [andb].
      destruct (String.eqb_spec (pathOf this m) k) as [<-|Hne].
      * split; first by destruct (default [] _).
        specialize (Hinv (pathOf this m)).
        assert (mapM diagnosticFor [m] = Normal [dg]) as Hm.
        { cbn [mapM]. by rewrite Hd. }
        destruct (own d (pathOf this m)) as [ds|]; cbn [default from_option id].
        -- destruct Hinv as [_ Hds]. by apply mapM_Normal_app.
        -- rewrite Hinv. done.
      * rewrite app_nil_r. apply Hinv.
  - cbn [mret completion_ret]. intros [= <- <-]. split_and!.
    + rewrite unlocated_snoc, Hloc, fmap_app. by subst shown.
    + done.
    + intros k. rewrite locatedIn_snoc, Hloc. cbn [andb].
      rewrite app_nil_r. apply Hinv.
Qed.

Lemma foldl_collect_stuck acc rest :
  (forall st, acc <> Normal st) ->
  foldl (collect editor baseUri this) acc rest = acc.
Proof.
  revert acc. induction rest as [|m rest IH]; intros acc Hacc; first done.
  cbn [foldl]. destruct acc as [st| |]; [by destruct (Hacc st)|..];
    by apply IH.
Qed.

Lemma foldl_collect_invariant rest : forall l shown d shown' d',
  shown = textOf this <$> unlocated this l ->
  NoDup (d.*1) ->
  (forall k,
     match own d k with
     | None => locatedIn this k l = []
     | Some ds => ds <> [] /\ mapM diagnosticFor (locatedIn this k l) = Normal ds
     end) ->
  foldl (collect editor baseUri this) (Normal (shown, d)) rest
    = Normal (shown', d') ->
  shown' = textOf this <$> unlocated this (l ++ rest) /\
  NoDup (d'.*1) /\
  (forall k,
     match own d' k with
     | None => locatedIn this k (l ++ rest) = []
     | Some ds =>
         ds <> [] /\ mapM diagnosticFor (locatedIn this k (l ++ rest)) = Normal ds
     end).
Proof.
  induction rest as [|m rest IH]; intros l shown d shown' d' Hshown Hkeys Hinv.
  { cbn [foldl]. intros [= <- <-]. by rewrite app_nil_r. }
  cbn [foldl].
  destruct (collect editor baseUri this (Normal (shown, d)) m)
    as [[shown1 d1]| |] eqn:Hstep.
  - destruct (collect_step _ _ _ _ _ _ Hshown Hkeys Hinv Hstep)
      as (Hshown1 & Hkeys1 & Hinv1).
    intros Hrest. rewrite (cons_middle m l rest), (assoc_L (++)).
    by apply (IH (l ++ [m]) shown1 d1).
  - by rewrite foldl_collect_stuck.
  - by rewrite foldl_collect_stuck.
Qed.

(** X27.  The diagnostics are grouped by path.  When the update returns, the
    editor has first been shown the text of every root message without
    source location, in order; then the collection is cleared; then, for
    each path, the diagnostics of the root messages located in that path
    are set, in the order of the root messages, under the URI of the
    path.  Every root message with a source location is in one of these
    sets. *)
Theorem diagnostics_grouped_by_path calls :
  updateBuildDiagnosticsFromErrorBundle editor baseUri this = Normal calls ->
  let roots := ErrorBundle.getMessages this in
  exists sets,
    calls =
      (showErrorMessage <$> (textOf this <$> unlocated this roots))
      ++ [clear] ++ sets /\
    (forall c, c ∈ sets ->
       exists srcPath ds,
         c = set (srcUriOf editor baseUri srcPath) ds /\ ds <> [] /\
         mapM (fun m => snd <$> diagnosticOf editor baseUri this m)
           (locatedIn this srcPath roots) = Normal ds) /\
    (forall m, m ∈ roots -> located this m = true ->
       exists ds, set (srcUriOf editor baseUri (pathOf this m)) ds ∈ sets).
Proof.
  intros Hrun roots. unfold updateBuildDiagnosticsFromErrorBundle in Hrun.
  fold roots in Hrun.
  destruct (foldl _ _ roots) as [[shown d]| |] eqn:Hfold; [|done..].
  cbn [mbind completion_bind mret completion_ret fst snd] in Hrun.
  injection Hrun as <-.
  destruct (foldl_collect_invariant roots [] [] [] shown d)
    as (-> & Hkeys & Hinv); [done|constructor|by intros k|exact Hfold|].
  cbn [app] in Hinv |- *.
  eexists. split; first done. split.
  - intros c ([k ds] & -> & Hin)%list_elem_of_fmap.
    apply (proj1 (elem_of_entries d (k, ds))) in Hin.
    exists k, ds. cbn [fst snd]. split; first done.
    specialize (Hinv k). rewrite (own_elem_of d k ds Hkeys Hin) in Hinv.
    exact Hinv.
  - intros m Hm Hloc. specialize (Hinv (pathOf this m)).
    destruct (own d (pathOf this m)) as [ds|] eqn:Hown.
    + exists ds. apply list_elem_of_fmap. exists (pathOf this m, ds).
      split; first done. by apply elem_of_entries, own_Some_elem_of.
    + assert (m ∈ locatedIn this (pathOf this m) roots) as Hin.
      { unfold locatedIn. apply list_elem_of_In, List.filter_In.
        split; first by apply list_elem_of_In.
        by rewrite Hloc, String.eqb_refl. }
      rewrite Hinv in Hin. by apply elem_of_nil in Hin.
Qed.

(** X28.  The diagnostic of a located root message: its text, the source
    ["zig"], the range of its source location, and one related
    information per note, in order, or none when there is no note.  Each
    note is filed under the URI of the error's path, whatever the note's
    own path, with the range of its own source location when it has one,
    of the error's otherwise. *)
Theorem diagnostic_related_information msgIndex srcPath diagnostic :
  diagnosticOf editor baseUri this msgIndex = Normal (srcPath, diagnostic) ->
  let notes := ErrorBundle.getNotes this msgIndex in
  srcPath = pathOf this msgIndex /\
  message diagnostic = textOf this msgIndex /\
  source diagnostic = "zig" /\
  sourceLocationToRange editor (locationOf this msgIndex)
    = Normal (range diagnostic) /\
  match relatedInformation diagnostic with
  | None => notes = []
  | Some related =>
      notes <> [] /\ length related = length notes /\
      forall k note r,
        notes !! k = Some note -> related !! k = Some r ->
        location_uri r = srcUriOf editor baseUri srcPath /\
        related_message r = textOf this note /\
        sourceLocationToRange editor
          (if located this note then locationOf this note
           else locationOf this msgIndex)
          = Normal (location_range r)
  end.
Proof.
  intros Hrun notes. pose proof (diagnosticOf_path _ _ _ Hrun) as Hpath.
  unfold diagnosticOf in Hrun. fold (locationOf this msgIndex) in Hrun.
  fold (pathOf this msgIndex) in Hrun. fold notes in Hrun.
  destruct (sourceLocationToRange _ _) as [errorRange| |] eqn:Hrange; [|done..].
  cbn [mbind completion_bind] in Hrun.
  destruct (mapM _ notes) as [related| |] eqn:Hrelated; [|done..].
  cbn [mbind completion_bind mret completion_ret] in Hrun.
  injection Hrun as _ <-. cbn [message source range relatedInformation].
  split_and!; [done..|].
  apply mapM_Normal_inv in Hrelated as [Hlen Hget].
  destruct notes as [|note0 notes'] eqn:Hnotes; first done.
  split_and!; [done..|].
  intros k note r Hnote Hr. specialize (Hget k note r Hnote Hr).
  unfold relatedInformationOf in Hget. cbv zeta in Hget.
  match type of Hget with
  | context [sourceLocationToRange editor ?sl] =>
      destruct (sourceLocationToRange editor sl) as [noteRange| |]
        eqn:HnoteRange; [|done..]
  end.
  cbn [mbind completion_bind mret completion_ret] in Hget.
  injection Hget as <-. cbn [location_uri related_message location_range].
  split_and!; [by rewrite Hpath|done|exact HnoteRange].
Qed.

Lemma foldl_collect_own_names rest : forall st st',
  foldl (collect editor baseUri this) (Normal st) rest = Normal st' ->
  forall m, m ∈ rest -> located this m = true ->
  inherited editor (pathOf this m) = false.
Proof.
  induction rest as [|m0 rest IH]; intros st st' Hrun m Hin Hloc.
  { by apply elem_of_nil in Hin. }
  cbn [foldl] in Hrun.
  destruct (collect editor baseUri this (Normal st) m0) as [st1| |] eqn:Hstep;
    [|by rewrite foldl_collect_stuck in Hrun..].
  apply elem_of_cons in Hin as [->|Hin]; last by eapply IH.
  unfold collect in Hstep. cbn [mbind completion_bind] in Hstep.
  fold (located this m0) in Hstep. rewrite Hloc in Hstep. cbn [negb] in Hstep.
  destruct (diagnosticOf editor baseUri this m0) as [[p dg]| |] eqn:Hd;
    [|done..].
  cbn [mbind completion_bind fst] in Hstep.
  pose proof (diagnosticOf_path _ _ _ Hd) as ->.
  by destruct (inherited editor (pathOf this m0)).
Qed.

(** X29.  A path that is the name of a property every object inherits
    (["constructor"], for one) cannot be a key of the [diagnostics]
    object: when a root message is located in such a path, the update
    does not return (it throws a TypeError on [push], unless it threw
    before). *)
Theorem diagnostics_inherited_name_throws m :
  m ∈ ErrorBundle.getMessages this ->
  located this m = true ->
  inherited editor (pathOf this m) = true ->
  match updateBuildDiagnosticsFromErrorBundle editor baseUri this with
  | Normal _ => False
  | _ => True
  end.
Proof.
  intros Hin Hloc Hname. unfold updateBuildDiagnosticsFromErrorBundle.
  destruct (foldl _ _ _) as [st| |] eqn:Hfold; [|done..].
  pose proof (foldl_collect_own_names _ _ _ Hfold m Hin Hloc). congruence.
Qed.

End diagnostics.

Section diagnostics_witnesses.
Import BuildDiagnostics.

Lemma diagnostics_grouped_by_path_witness :
  exists calls sets,
    updateBuildDiagnosticsFromErrorBundle ProviderSamples.editor "file:///w"
      (Samples.bundle 0 2 5) = Normal calls /\
    calls = [clear] ++ sets.
Proof.
  destruct (updateBuildDiagnosticsFromErrorBundle ProviderSamples.editor
              "file:///w" (Samples.bundle 0 2 5)) as [calls| |] eqn:Hrun;
    [|by vm_compute in Hrun..].
  destruct (diagnostics_grouped_by_path ProviderSamples.editor "file:///w"
              (Samples.bundle 0 2 5) calls Hrun) as (sets & Hcalls & _).
  exists calls, sets. split; first done. exact Hcalls.
Defined.

Lemma diagnostic_related_information_witness :
  exists srcPath diagnostic,
    diagnosticOf ProviderSamples.editor "file:///w" (Samples.bundle 0 2 5) 4
      = Normal (srcPath, diagnostic) /\
    srcPath = "a.zig" /\ message diagnostic = "msg".
Proof.
  destruct (diagnosticOf ProviderSamples.editor "file:///w"
              (Samples.bundle 0 2 5) 4) as [[srcPath diagnostic]| |] eqn:Hrun;
    [|by vm_compute in Hrun..].
  destruct (diagnostic_related_information ProviderSamples.editor "file:///w"
              (Samples.bundle 0 2 5) 4 srcPath diagnostic Hrun)
    as (Hpath & Hmessage & _).
  exists srcPath, diagnostic. split; first done. split; [exact Hpath|exact Hmessage].
Defined.

Lemma diagnostics_inherited_name_throws_witness :
  match
    updateBuildDiagnosticsFromErrorBundle ProviderSamples.editor "file:///w"
      ProviderSamples.inheritedName
  with
  | Normal _ => False
  | _ => True
  end.
Proof.
  apply (diagnostics_inherited_name_throws ProviderSamples.editor "file:///w"
           ProviderSamples.inheritedName 4).
  - apply elem_of_cons. by left.
  - reflexivity.
  - reflexivity.
Defined.

End diagnostics_witnesses.
